(** * Verification of the retail novelty agent and the search cache of inventor-ai

    Shallow embedding of [src/lib/search/ebay.ts] (eBay Browse API client
    and the retail search agent) and of the [search_cache] table with its
    [cleanup_expired_cache] function (SQL schema).

    Conventions of the embedding:
    - JavaScript numbers used as scores and confidences are rationals [Q];
      millisecond timestamps and HTTP statuses are [Z].
    - Effects ([fetch], the Anthropic client, the module-level token cache)
      go through a state and exception monad [M]: the state holds the
      module-level [cachedToken] and a trace of the external calls made;
      the answers of the outside world are fields of a [World] record.
    - A rejected promise / thrown exception is the [Throw] outcome. *)

From Stdlib Require Import String Ascii List ZArith QArith Bool Lia.
From Stdlib Require Import Sorting.Sorted Sorting.Permutation Lqa.
Import ListNotations.
Open Scope string_scope.

(* ------------------------------------------------------------------ *)
(** ** Thrown values and the effect monad *)

(** What a [catch] clause receives: an [Error] object with its message,
    or some other thrown value. *)
Inductive thrown :=
| ErrorObj (message : string)
| NonError.

Inductive Exc (A : Type) :=
| Ok (a : A)
| Throw (e : thrown).
Arguments Ok {A} a.
Arguments Throw {A} e.

(** External calls, recorded in the order they are made. *)
Inductive ExtCall :=
| CallOAuth
| CallSearch (params : list (string * string))
| CallOracle.

(** The module-level token cache of ebay.ts. *)
Record CachedToken := mkCachedToken {
  ct_token : string;
  ct_expiresAt : Z
}.

Record St := mkSt {
  cachedToken : option CachedToken;
  trace : list ExtCall
}.

Definition M (A : Type) := St -> Exc A * St.

Definition ret {A} (a : A) : M A := fun s => (Ok a, s).
Definition bind {A B} (m : M A) (k : A -> M B) : M B :=
  fun s => match m s with
           | (Ok a, s') => k a s'
           | (Throw e, s') => (Throw e, s')
           end.
Definition throw {A} (e : thrown) : M A := fun s => (Throw e, s).
(** [try { m } catch (e) { h e }] *)
Definition try_catch {A} (m : M A) (h : thrown -> M A) : M A :=
  fun s => match m s with
           | (Ok a, s') => (Ok a, s')
           | (Throw e, s') => h e s'
           end.
Definition get_st : M St := fun s => (Ok s, s).
Definition put_st (s : St) : M unit := fun _ => (Ok tt, s).
Definition set_cachedToken (c : option CachedToken) : M unit :=
  fun s => (Ok tt, mkSt c (trace s)).
Definition record_call (c : ExtCall) : M unit :=
  fun s => (Ok tt, mkSt (cachedToken s) (trace s ++ [c])).
(** Lift the outcome of an awaited promise. *)
Definition lift {A} (r : Exc A) : M A :=
  match r with Ok a => ret a | Throw e => throw e end.

Notation "x <- m ;; k" := (bind m (fun x => k))
  (at level 61, m at next level, right associativity).
Notation "m ;;; k" := (bind m (fun _ => k))
  (at level 61, right associativity).

(* ------------------------------------------------------------------ *)
(** ** JavaScript helpers *)

(** Truthiness of an optional environment variable: [undefined] and the
    empty string are falsy. *)
Definition truthy (o : option string) : bool :=
  match o with
  | Some s => negb (String.eqb s "")
  | None => false
  end.

(** [s || d] on strings *)
Definition str_or (s d : string) : string :=
  if String.eqb s "" then d else s.

(** Decimal rendering of a non-negative integer, as in a template string. *)
Fixpoint digits_aux (fuel : nat) (n : nat) (acc : string) : string :=
  match fuel with
  | O => acc
  | S f =>
      let d := String (ascii_of_nat (48 + n mod 10)) EmptyString in
      if Nat.ltb n 10 then d ++ acc else digits_aux f (n / 10) (d ++ acc)
  end.
Definition nat_to_string (n : nat) : string := digits_aux (S n) n "".
Definition Z_to_string (z : Z) : string :=
  match z with
  | Zneg p => "-" ++ nat_to_string (Pos.to_nat p)
  | _ => nat_to_string (Z.to_nat z)
  end.
Arguments nat_to_string : simpl never.
Arguments Z_to_string : simpl never.

(** [response.ok]: status in the range 200-299. *)
Definition resp_ok (status : Z) : bool := (200 <=? status)%Z && (status <=? 299)%Z.

(* ------------------------------------------------------------------ *)
(** ** Data model of ebay.ts *)

Record Price := mkPrice { price_value : string; price_currency : string }.
Record Seller := mkSeller {
  seller_username : string;
  seller_feedbackPercentage : string;
  seller_feedbackScore : Z
}.
Record Category := mkCategory { categoryId : string; categoryName : string }.
Record ItemLocation := mkItemLocation {
  loc_city : string;
  loc_stateOrProvince : string;
  loc_country : string
}.

(** [EbayProduct]; optional members are [option].  [price] is declared
    mandatory but [ebayProductToFinding] tests it, so it is optional here. *)
Record EbayProduct := mkEbayProduct {
  itemId : string;
  title : string;
  itemWebUrl : string;
  price : option Price;
  image : option string;            (* image?.imageUrl *)
  condition : string;
  seller : option Seller;
  categories : option (list Category);
  itemLocation : option ItemLocation
}.

(** The members of [EbaySearchResponse] that [searchEbay] reads. *)
Record EbaySearchResponse := mkEbaySearchResponse {
  resp_total : option Z;
  itemSummaries : option (list EbayProduct)
}.

Record EbaySearchResult := mkEbaySearchResult {
  success : bool;
  products : list EbayProduct;
  total : Z;
  searchQuery : string;
  error : option string
}.

Record SearchOptions := mkSearchOptions {
  opt_limit : option Z;
  opt_offset : option Z;
  opt_filter : option string;
  opt_sort : option string
}.
Definition no_options := mkSearchOptions None None None None.

(** Body of the OAuth token response. *)
Record OAuthBody := mkOAuthBody { access_token : string; expires_in : Z }.

(** Outcome of [await fetch(...)]: a rejection, or a response with its
    status and the outcomes of [await response.text()] and
    [await response.json()] (a JSON body the code cannot read, such as
    [null], counts as a rejected [json()]). *)
Inductive FetchOutcome (B : Type) :=
| FetchReject (e : thrown)
| FetchResp (status : Z) (text : Exc string) (json : Exc B).
Arguments FetchReject {B} e.
Arguments FetchResp {B} status text json.

(** [NoveltyCheckRequest] *)
Record NoveltyCheckRequest := mkNoveltyCheckRequest {
  invention_name : string;
  description : string;
  problem_statement : option string;
  target_audience : option string;
  key_features : option (list string)
}.

(** First element of [response.content] from the Anthropic client. *)
Inductive ContentBlock :=
| TextBlock (text : string)
| OtherBlock.

(** The outside world seen by one call: environment variables, the clock
    ([Date.now()], also used for [new Date()]), and the answers of the
    OAuth endpoint, of the Browse API (given the bearer token and the query
    parameters) and of the Anthropic messages API (given the request and
    the products the prompt is built from). *)
Record World := mkWorld {
  EBAY_CLIENT_ID : option string;
  EBAY_CLIENT_SECRET : option string;
  w_now : Z;
  w_oauth : string -> FetchOutcome OAuthBody;
  w_search : string -> list (string * string) -> FetchOutcome EbaySearchResponse;
  w_oracle : NoveltyCheckRequest -> list EbayProduct -> Exc (list ContentBlock)
}.

(* ------------------------------------------------------------------ *)
(** ** getAccessToken and searchEbay *)

Definition credentials_missing_msg : string :=
  "eBay API credentials not configured. Please set EBAY_CLIENT_ID and EBAY_CLIENT_SECRET environment variables. "
  ++ "Get your credentials at: https://developer.ebay.com/my/keys".

(** The 5 minute refresh buffer, in milliseconds. *)
Definition refresh_buffer : Z := 5 * 60 * 1000.

Definition opt_str (o : option string) : string :=
  match o with Some s => s | None => "" end.

(** [`${clientId}:${clientSecret}`] (sent base64-encoded). *)
Definition basic_credentials (clientId clientSecret : option string) : string :=
  opt_str clientId ++ ":" ++ opt_str clientSecret.

Definition getAccessToken (w : World) : M string :=
  let clientId := EBAY_CLIENT_ID w in
  let clientSecret := EBAY_CLIENT_SECRET w in
  if negb (truthy clientId) || negb (truthy clientSecret) then
    throw (ErrorObj credentials_missing_msg)
  else
    let now := w_now w in
    s <- get_st ;;
    let hit :=
      match cachedToken s with
      | Some c => if (now + refresh_buffer <? ct_expiresAt c)%Z then Some c else None
      | None => None
      end in
    match hit with
    | Some c => ret (ct_token c)
    | None =>
        let credentials := basic_credentials clientId clientSecret in
        record_call CallOAuth ;;;
        match w_oauth w credentials with
        | FetchReject e => throw e
        | FetchResp status text json =>
            if negb (resp_ok status) then
              errorText <- lift text ;;
              throw (ErrorObj ("eBay OAuth failed (" ++ Z_to_string status ++ "): " ++ errorText))
            else
              data <- lift json ;;
              set_cachedToken (Some (mkCachedToken (access_token data)
                                       (now + expires_in data * 1000)%Z)) ;;;
              ret (access_token data)
        end
    end.

Definition error_message (e : thrown) : string :=
  match e with
  | ErrorObj m => m
  | NonError => "Unknown error occurred"
  end.

Definition default_Z (o : option Z) (d : Z) : Z :=
  match o with Some z => z | None => d end.

(** The query parameters of the Browse API request, in insertion order. *)
Definition search_params (query : string) (options : SearchOptions) : list (string * string) :=
  let limit := default_Z (opt_limit options) 20 in
  let offset := default_Z (opt_offset options) 0 in
  [("q", query); ("limit", Z_to_string limit); ("offset", Z_to_string offset)]
  ++ (if truthy (opt_filter options) then [("filter", opt_str (opt_filter options))] else [])
  ++ (if truthy (opt_sort options) then [("sort", opt_str (opt_sort options))] else []).

Definition searchEbay (w : World) (query : string) (options : SearchOptions) : M EbaySearchResult :=
  try_catch
    (accessToken <- getAccessToken w ;;
     let params := search_params query options in
     record_call (CallSearch params) ;;;
     match w_search w accessToken params with
     | FetchReject e => throw e
     | FetchResp status text json =>
         if negb (resp_ok status) then
           errorText <- lift text ;;
           if (status =? 401)%Z then
             set_cachedToken None ;;;
             throw (ErrorObj "eBay access token expired. Please retry.")
           else if (status =? 429)%Z then
             throw (ErrorObj "eBay API rate limit exceeded. Please try again later.")
           else
             throw (ErrorObj ("eBay search failed (" ++ Z_to_string status ++ "): " ++ errorText))
         else
           data <- lift json ;;
           ret (mkEbaySearchResult true
                  (match itemSummaries data with Some l => l | None => [] end)
                  (default_Z (resp_total data) 0)
                  query None)
     end)
    (fun e =>
       ret (mkEbaySearchResult false [] 0 query (Some (error_message e)))).

(* ------------------------------------------------------------------ *)
(** ** searchSimilarProducts *)

(** Strings are read as Latin-1 text, one character per UTF-16 code
    unit of the JS string.  [\s] there is tab, line feed, vertical tab,
    form feed, carriage return (9-13), space (32) and no-break space (160). *)
Definition is_space (c : ascii) : bool :=
  let n := nat_of_ascii c in
  (Nat.eqb n 32) || (Nat.leb 9 n && Nat.leb n 13) || Nat.eqb n 160.

(** An upper-case letter of Latin-1 ([A]-[Z], and 192-222 except the
    multiplication sign 215), the characters [toLowerCase] rewrites. *)
Definition is_upper (c : ascii) : bool :=
  let n := nat_of_ascii c in
  (Nat.leb 65 n && Nat.leb n 90) || (Nat.leb 192 n && Nat.leb n 222 && negb (Nat.eqb n 215)).

(** Each of these letters lower-cases to the character 32 positions on. *)
Definition ascii_lower (c : ascii) : ascii :=
  if is_upper c then ascii_of_nat (nat_of_ascii c + 32) else c.

(** [s.toLowerCase()] on Latin-1 text. *)
Fixpoint toLowerCase (s : string) : string :=
  match s with
  | EmptyString => EmptyString
  | String c r => String (ascii_lower c) (toLowerCase r)
  end.

(** [s.split(/\s+/)]: pieces between maximal runs of white space; a leading
    or trailing run yields an empty piece. *)
Fixpoint split_ws_aux (s : string) (cur : string) (in_run : bool) : list string :=
  match s with
  | EmptyString => [cur]
  | String c r =>
      if is_space c then
        if in_run then split_ws_aux r cur true
        else cur :: split_ws_aux r EmptyString true
      else split_ws_aux r (cur ++ String c EmptyString) false
  end.
Definition split_ws (s : string) : list string := split_ws_aux s EmptyString false.

Definition stopWords : list string :=
  ["the"; "a"; "an"; "and"; "or"; "but"; "in"; "on"; "at"; "to"; "for"; "of";
   "with"; "by"; "from"; "as"; "is"; "was"; "are"; "were"; "been"; "be";
   "have"; "has"; "had"; "do"; "does"; "did"; "will"; "would"; "could";
   "should"; "may"; "might"; "must"; "shall"; "can"; "need"; "dare"; "ought";
   "used"; "this"; "that"; "these"; "those"; "it"; "its"; "device"; "system";
   "apparatus"; "method"; "invention"; "product"; "innovative"; "new";
   "novel"; "smart"; "intelligent"; "advanced"; "automatic"; "automated"].

Definition set_has (l : list string) (x : string) : bool :=
  existsb (String.eqb x) l.

Definition keep_word (w : string) : bool :=
  Nat.ltb 2 (String.length w) && negb (set_has stopWords w).

(** [[...new Set(l)]]: first occurrences, in order. *)
Fixpoint dedup_aux (seen : list string) (l : list string) : list string :=
  match l with
  | [] => []
  | x :: r => if set_has seen x then dedup_aux seen r else x :: dedup_aux (seen ++ [x]) r
  end.
Definition dedup (l : list string) : list string := dedup_aux [] l.

Definition similar_products_query (inventionName : string) (keyFeatures : option (list string)) : string :=
  let nameWords := filter keep_word (split_ws (toLowerCase inventionName)) in
  let featureWords :=
    match keyFeatures with
    | Some fs =>
        if Nat.ltb 0 (length fs) then
          firstn 3 (flat_map (fun f => filter keep_word (split_ws (toLowerCase f))) (firstn 2 fs))
        else []
    | None => []
    end in
  let keywords := app (firstn 3 nameWords) featureWords in
  String.concat " " (firstn 5 (dedup keywords)).

Definition searchSimilarProducts (w : World) (inventionName description : string)
    (keyFeatures : option (list string)) : M EbaySearchResult :=
  searchEbay w (similar_products_query inventionName keyFeatures)
    (mkSearchOptions (Some 15%Z) None None None).

Definition isEbayConfigured (w : World) : bool :=
  truthy (EBAY_CLIENT_ID w) && truthy (EBAY_CLIENT_SECRET w).

Definition getCredentialStatus (w : World) : string :=
  if isEbayConfigured w then "eBay API credentials configured"
  else "eBay API credentials not configured. "
       ++ "To enable real eBay product search, add EBAY_CLIENT_ID and EBAY_CLIENT_SECRET to your environment variables. "
       ++ "Get your free credentials at: https://developer.ebay.com/my/keys".

(* ------------------------------------------------------------------ *)
(** ** Retail search agent: data model *)

Record FindingMetadata := mkFindingMetadata {
  item_id : string;
  md_price : string;
  md_condition : string;
  image_url : option string;
  md_seller_username : option string;
  seller_feedback : option string;
  md_categories : option string;
  location : option string
}.

Record NoveltyFinding := mkNoveltyFinding {
  f_title : string;
  f_description : string;
  url : string;
  similarity_score : Q;
  source : string;
  metadata : FindingMetadata
}.

Record TruthScores := mkTruthScores {
  objective_truth : Q;
  practical_truth : Q;
  completeness : Q;
  contextual_scope : Q
}.

Record NoveltyResult := mkNoveltyResult {
  agent_type : string;
  is_novel : bool;
  confidence : Q;
  findings : list NoveltyFinding;
  summary : string;
  truth_scores : TruthScores;
  search_query_used : string;
  timestamp : Z
}.

(** One entry of [product_analyses] in the analysis JSON. *)
Record ProductAnalysis := mkProductAnalysis {
  pa_item_id : string;
  pa_similarity_score : Q;
  pa_analysis : string
}.

(** The analysis JSON as the code reads it. *)
Record AnalysisResult := mkAnalysisResult {
  a_is_novel : bool;
  a_confidence : Q;
  product_analyses : option (list ProductAnalysis);
  a_summary : string;
  a_truth_scores : TruthScores
}.

(* ------------------------------------------------------------------ *)
(** ** ebayProductToFinding *)

Definition strip_leading_sep (s : string) : string :=
  if String.prefix ", " s then substring 2 (String.length s - 2) s else s.

Definition strip_trailing_sep (s : string) : string :=
  let n := String.length s in
  if Nat.leb 2 n && String.eqb (substring (n - 2) 2 s) ", "
  then substring 0 (n - 2) s else s.

Definition ebayProductToFinding (product : EbayProduct) : NoveltyFinding :=
  mkNoveltyFinding
    (title product)
    (str_or (condition product) "New" ++ " - " ++ title product)
    (itemWebUrl product)
    0 (* Will be set by Claude analysis *)
    "eBay"
    (mkFindingMetadata
       (itemId product)
       (match price product with
        | Some p => price_currency p ++ " " ++ price_value p
        | None => "Price not available"
        end)
       (condition product)
       (image product)
       (option_map seller_username (seller product))
       (match seller product with
        | Some s => if truthy (Some (seller_feedbackPercentage s))
                    then Some (seller_feedbackPercentage s ++ "%") else None
        | None => None
        end)
       (option_map (fun cs => String.concat ", " (map categoryName cs)) (categories product))
       (option_map (fun l => strip_trailing_sep (strip_leading_sep
                      (loc_city l ++ ", " ++ loc_stateOrProvince l ++ ", " ++ loc_country l)))
          (itemLocation product))).

(* ------------------------------------------------------------------ *)
(** ** Extracting the JSON text from the model's answer *)

Definition nl : string := String "010"%char EmptyString.
Definition dq : string := String "034"%char EmptyString.

(** [String.prototype.trim] removes the same white space as [\s]. *)
Definition is_trim_space (c : ascii) : bool := is_space c.

Fixpoint trim_start (s : string) : string :=
  match s with
  | String c r => if is_trim_space c then trim_start r else s
  | EmptyString => EmptyString
  end.

Definition rev_string (s : string) : string :=
  string_of_list_ascii (rev (list_ascii_of_string s)).

(** [s.trim()] *)
Definition trim (s : string) : string :=
  rev_string (trim_start (rev_string (trim_start s))).

(** [s.match(/<opn>([\s\S]*?)\n```/)] and its group 1: the leftmost
    opening fence, then the shortest text up to the next closing fence. *)
Definition match_fence (opn : string) (s : string) : option string :=
  match String.index 0 opn s with
  | None => None
  | Some i =>
      let st := (i + String.length opn)%nat in
      match String.index st (nl ++ "```") s with
      | None => None
      | Some j => Some (substring st (j - st)%nat s)
      end
  end.

Definition extract_json (text : string) : string :=
  let jsonText := trim text in
  match match_fence ("```json" ++ nl) jsonText with
  | Some g => g
  | None =>
      match match_fence ("```" ++ nl) jsonText with
      | Some g => g
      | None => jsonText
      end
  end.

(* ------------------------------------------------------------------ *)
(** ** Array.prototype.sort with [(a, b) => b.similarity_score - a.similarity_score]

    [Array.prototype.sort] is stable; with a consistent comparator its
    result is the stable insertion sort below: an element that comes first
    in the input is placed before a later one unless the comparator
    returns a positive number. *)

Definition score_cmp (a b : NoveltyFinding) : Q :=
  similarity_score b - similarity_score a.

Fixpoint insert_finding (x : NoveltyFinding) (l : list NoveltyFinding) : list NoveltyFinding :=
  match l with
  | [] => [x]
  | y :: r => if Qle_bool (score_cmp x y) 0 then x :: y :: r else y :: insert_finding x r
  end.

Fixpoint sort_findings (l : list NoveltyFinding) : list NoveltyFinding :=
  match l with
  | [] => []
  | x :: r => insert_finding x (sort_findings r)
  end.

(** [new Map(entries).get(k)]: the last entry with key [k] wins. *)
Definition map_get (entries : list ProductAnalysis) (k : string) : option ProductAnalysis :=
  find (fun a => String.eqb (pa_item_id a) k) (rev entries).

Definition apply_analysis (m : list ProductAnalysis) (finding : NoveltyFinding) : NoveltyFinding :=
  match map_get m (item_id (metadata finding)) with
  | Some analysis =>
      mkNoveltyFinding (f_title finding)
        (str_or (pa_analysis analysis) (f_description finding))
        (url finding) (pa_similarity_score analysis) (source finding) (metadata finding)
  | None => finding
  end.

Definition zero_truth : TruthScores := mkTruthScores 0 0 0 0.

Section RetailAgent.

(** [JSON.parse], read into the shape the code uses; a syntax error, or a
    value whose reading throws (e.g. [product_analyses] not an array), is
    a [Throw]. *)
Variable JSON_parse : string -> Exc AnalysisResult.

(** The part of [runRetailSearchAgent] after PHASE 1 (the eBay fetch). *)
Definition retail_after_fetch (w : World) (request : NoveltyCheckRequest)
    (ebayResult : EbaySearchResult) : M NoveltyResult :=
    if negb (success ebayResult) then
      ret (mkNoveltyResult "retail_search" false 0 []
             ("eBay API error: " ++ match error ebayResult with
                                    | Some e => e | None => "undefined" end)
             zero_truth (searchQuery ebayResult) (w_now w))
    else if Nat.eqb (length (products ebayResult)) 0 then
      ret (mkNoveltyResult "retail_search" true (7 # 10) []
             ("No similar products found on eBay for " ++ dq ++ searchQuery ebayResult ++ dq
              ++ ". This suggests the invention may be novel in the retail marketplace, though further research on other platforms is recommended.")
             (mkTruthScores (8 # 10) (7 # 10) (5 # 10) (8 # 10))
             (searchQuery ebayResult) (w_now w))
    else
      let findings0 := map ebayProductToFinding (products ebayResult) in
      try_catch
        (record_call CallOracle ;;;
         content <- lift (w_oracle w request (products ebayResult)) ;;
         match content with
         | [] => throw (ErrorObj "Cannot read properties of undefined (reading 'type')")
         | OtherBlock :: _ => throw (ErrorObj "Unexpected response type from Claude")
         | TextBlock text :: _ =>
             analysisResult <- lift (JSON_parse (extract_json text)) ;;
             let productAnalysisMap :=
               match product_analyses analysisResult with Some l => l | None => [] end in
             let updatedFindings := map (apply_analysis productAnalysisMap) findings0 in
             ret (mkNoveltyResult "retail_search" (a_is_novel analysisResult)
                    (a_confidence analysisResult) (sort_findings updatedFindings)
                    (a_summary analysisResult) (a_truth_scores analysisResult)
                    (searchQuery ebayResult) (w_now w))
         end)
        (fun _ =>
           ret (mkNoveltyResult "retail_search" false (3 # 10) findings0
                  ("Found " ++ nat_to_string (length findings0)
                   ++ " potentially similar products on eBay, but analysis failed. Manual review recommended.")
                  (mkTruthScores (6 # 10) (5 # 10) (4 # 10) (5 # 10))
                  (searchQuery ebayResult) (w_now w))).

Definition runRetailSearchAgent (w : World) (request : NoveltyCheckRequest) : M NoveltyResult :=
  if negb (isEbayConfigured w) then
    ret (mkNoveltyResult "retail_search" false 0 [] (getCredentialStatus w)
           zero_truth (invention_name request) (w_now w))
  else
    ebayResult <- searchSimilarProducts w (invention_name request) (description request)
                    (key_features request) ;;
    retail_after_fetch w request ebayResult.

End RetailAgent.

(* ------------------------------------------------------------------ *)
(** ** The [search_cache] table and [cleanup_expired_cache] *)

Module SearchCache.

Inductive SearchType := Patent | Web | Retail.

(** A row of [public.search_cache]; timestamps are [Z], JSONB columns
    their text, [expires_at] NULL is [None]. *)
Record CacheRow := mkCacheRow {
  id : string;
  query_hash : string;
  search_type : SearchType;
  query_params : string;
  results : list string;
  result_count : Z;
  source_api : string;
  expires_at : option Z;
  created_at : Z;
  updated_at : Z
}.

Definition Table := list CacheRow.

(** [expires_at IS NOT NULL AND expires_at < NOW()] *)
Definition expired (now : Z) (r : CacheRow) : bool :=
  match expires_at r with
  | Some t => (t <? now)%Z
  | None => false
  end.

(** [cleanup_expired_cache()]: the DELETE, then [GET DIAGNOSTICS
    deleted_count = ROW_COUNT]; returns the new table and the count. *)
Definition cleanup_expired_cache (now : Z) (t : Table) : Table * nat :=
  let remaining := filter (fun r => negb (expired now r)) t in
  let deleted_count := length (filter (expired now) t) in
  (remaining, deleted_count).

(** SQL statements on the table.  [Upsert] is
    [INSERT ... ON CONFLICT (query_hash) DO UPDATE SET ...]. *)
Inductive Stmt :=
| Insert (r : CacheRow)
| Upsert (r : CacheRow)
| UpdateWhere (p : CacheRow -> bool) (f : CacheRow -> CacheRow)
| DeleteWhere (p : CacheRow -> bool).

Definition same_hash (h : string) (r : CacheRow) : bool := String.eqb (query_hash r) h.

(** The columns an upsert replaces on conflict; [id] and [created_at] stay. *)
Definition upsert_merge (old new : CacheRow) : CacheRow :=
  mkCacheRow (id old) (query_hash old) (search_type new) (query_params new)
    (results new) (result_count new) (source_api new) (expires_at new)
    (created_at old) (updated_at new).

(** The table a statement would produce. *)
Definition stmt_effect (t : Table) (s : Stmt) : Table :=
  match s with
  | Insert r => app t [r]
  | Upsert r =>
      if existsb (same_hash (query_hash r)) t
      then map (fun x => if same_hash (query_hash r) x then upsert_merge x r else x) t
      else app t [r]
  | UpdateWhere p f => map (fun x => if p x then f x else x) t
  | DeleteWhere p => filter (fun x => negb (p x)) t
  end.

Fixpoint nodupb (l : list string) : bool :=
  match l with
  | [] => true
  | x :: r => negb (existsb (String.eqb x) r) && nodupb r
  end.

(** [query_hash TEXT NOT NULL UNIQUE]: an INSERT or UPDATE whose result
    would hold two rows with one [query_hash] fails as a whole and leaves
    the table as it was; a DELETE touches no unique index. *)
Definition exec (t : Table) (s : Stmt) : Table :=
  match s with
  | DeleteWhere _ => stmt_effect t s
  | _ => let t' := stmt_effect t s in
         if nodupb (map query_hash t') then t' else t
  end.

(** Modelled from the spec: the cache store operations [put] and
    [invalidate] (sections 4.2 and 6), whose code is not part of the
    sources; [put] is the upsert keyed by the fingerprint, [invalidate]
    deletes by fingerprint, [get] only reads. *)
Definition put_row (fingerprint new_id : string) (ty : SearchType) (params : string)
    (res : list string) (api : string) (ttl now : Z) : CacheRow :=
  mkCacheRow new_id fingerprint ty params res (Z.of_nat (length res)) api
    (match ty with Patent => None | _ => Some (now + ttl)%Z end) now now.

Inductive CacheOp :=
| OpPut (fingerprint new_id : string) (ty : SearchType) (params : string)
        (res : list string) (api : string) (ttl now : Z)
| OpGet (fingerprint : string) (now : Z)
| OpInvalidate (fingerprint : string)
| OpCleanup (now : Z)
| OpSql (s : Stmt).

Definition run_op (t : Table) (o : CacheOp) : Table :=
  match o with
  | OpPut fp nid ty params res api ttl now => exec t (Upsert (put_row fp nid ty params res api ttl now))
  | OpGet _ _ => t
  | OpInvalidate fp => exec t (DeleteWhere (same_hash fp))
  | OpCleanup now => fst (cleanup_expired_cache now t)
  | OpSql s => exec t s
  end.

(** A committed history: the operations of all sessions, in the order
    the database serialises them. *)
Definition run_ops (t : Table) (ops : list CacheOp) : Table := fold_left run_op ops t.

End SearchCache.

(* ------------------------------------------------------------------ *)
(** ** The foreign keys of the schema and their ON DELETE actions *)

Module Schema.

(** The rows of the tables, with their key and foreign-key columns and
    a column that identifies their content; the other columns do not
    take part in the ON DELETE actions.  [auth.users] rows are their
    [id].  A NULL [project_id] is [None]. *)
Record Profile := mkProfile { pf_id : string; pf_email : string }.
Record Project := mkProject { pj_id : string; pj_user_id : string; pj_name : string }.
Record Conversation := mkConversation {
  cv_id : string; cv_user_id : string; cv_project_id : option string; cv_title : option string
}.
Record Message := mkMessage { msg_id : string; msg_conversation_id : string; msg_content : string }.
Record Memory := mkMemory {
  mem_id : string; mem_user_id : string; mem_project_id : option string; mem_content : string
}.

Record DB := mkDB {
  auth_users : list string;
  profiles : list Profile;
  projects : list Project;
  conversations : list Conversation;
  messages : list Message;
  ai_memory : list Memory
}.

Definition mem (s : string) (l : list string) : bool := existsb (String.eqb s) l.

(** A nullable reference: NULL refers to nothing. *)
Definition opt_mem (o : option string) (l : list string) : bool :=
  match o with Some s => mem s l | None => true end.

(** A nullable reference to one of [gone]. *)
Definition refs (o : option string) (gone : list string) : bool :=
  match o with Some s => mem s gone | None => false end.

(** [profiles.id REFERENCES auth.users(id)] holds. *)
Definition fk_users (db : DB) : bool :=
  forallb (fun p => mem (pf_id p) (auth_users db)) (profiles db).

(** The REFERENCES clauses between the public tables hold. *)
Definition fk_refs (db : DB) : bool :=
  forallb (fun p => mem (pj_user_id p) (map pf_id (profiles db))) (projects db)
  && forallb (fun c => mem (cv_user_id c) (map pf_id (profiles db))
                       && opt_mem (cv_project_id c) (map pj_id (projects db)))
       (conversations db)
  && forallb (fun m => mem (msg_conversation_id m) (map cv_id (conversations db))) (messages db)
  && forallb (fun a => mem (mem_user_id a) (map pf_id (profiles db))
                       && opt_mem (mem_project_id a) (map pj_id (projects db)))
       (ai_memory db).

(** Every REFERENCES clause holds. *)
Definition fk_ok (db : DB) : bool := fk_users db && fk_refs db.

(** [DELETE FROM public.projects WHERE p]: [conversations.project_id]
    is [ON DELETE SET NULL], [ai_memory.project_id] is [ON DELETE CASCADE]. *)
Definition delete_projects (p : Project -> bool) (db : DB) : DB :=
  let gone := map pj_id (filter p (projects db)) in
  mkDB (auth_users db) (profiles db)
    (filter (fun x => negb (p x)) (projects db))
    (map (fun c => if refs (cv_project_id c) gone
                   then mkConversation (cv_id c) (cv_user_id c) None (cv_title c) else c)
       (conversations db))
    (messages db)
    (filter (fun a => negb (refs (mem_project_id a) gone)) (ai_memory db)).

(** [DELETE FROM public.conversations WHERE p]: [messages.conversation_id]
    is [ON DELETE CASCADE]. *)
Definition delete_conversations (p : Conversation -> bool) (db : DB) : DB :=
  let gone := map cv_id (filter p (conversations db)) in
  mkDB (auth_users db) (profiles db) (projects db)
    (filter (fun x => negb (p x)) (conversations db))
    (filter (fun m => negb (mem (msg_conversation_id m) gone)) (messages db))
    (ai_memory db).

(** [DELETE FROM public.profiles WHERE id = uid]: [projects.user_id],
    [conversations.user_id] and [ai_memory.user_id] are
    [ON DELETE CASCADE], and so are the actions of the deleted projects
    and conversations. *)
Definition delete_profile (uid : string) (db : DB) : DB :=
  let db1 := delete_projects (fun x => String.eqb (pj_user_id x) uid) db in
  let db2 := delete_conversations (fun c => String.eqb (cv_user_id c) uid) db1 in
  mkDB (auth_users db2)
    (filter (fun x => negb (String.eqb (pf_id x) uid)) (profiles db2))
    (projects db2) (conversations db2) (messages db2)
    (filter (fun a => negb (String.eqb (mem_user_id a) uid)) (ai_memory db2)).

(** [DELETE FROM auth.users WHERE id = uid]: [profiles.id] is
    [ON DELETE CASCADE]. *)
Definition delete_user (uid : string) (db : DB) : DB :=
  delete_profile uid
    (mkDB (filter (fun x => negb (String.eqb x uid)) (auth_users db)) (profiles db)
       (projects db) (conversations db) (messages db) (ai_memory db)).

End Schema.

(* ------------------------------------------------------------------ *)
(** ** Sample inputs *)

Module Samples.

Definition prod1 : EbayProduct :=
  mkEbayProduct "v1|123" "Solar Phone Case" "https://www.ebay.com/itm/123"
    (Some (mkPrice "19.99" "USD")) None "" None
    (Some [mkCategory "1" "Cases"; mkCategory "2" "Solar"])
    (Some (mkItemLocation "" "CA" "US")).

Definition prod2 : EbayProduct :=
  mkEbayProduct "v1|456" "Phone Charger" "https://www.ebay.com/itm/456"
    None None "Used" None None None.

Definition request1 : NoveltyCheckRequest :=
  mkNoveltyCheckRequest "Smart Solar Phone Case" "A case that charges the phone"
    None None (Some ["solar charging"]).

Definition configured_world (prods : list EbayProduct)
    (oracle : Exc (list ContentBlock)) : World :=
  mkWorld (Some "id") (Some "secret") 1000
    (fun _ => FetchResp 200 (Ok "") (Ok (mkOAuthBody "tok" 7200)))
    (fun _ _ => FetchResp 200 (Ok "") (Ok (mkEbaySearchResponse (Some (Z.of_nat (length prods))) (Some prods))))
    (fun _ _ => oracle).

Definition unconfigured_world : World :=
  mkWorld None (Some "secret") 1000
    (fun _ => FetchReject NonError) (fun _ _ => FetchReject NonError) (fun _ => fun _ => Throw NonError).

Definition analysis1 : AnalysisResult :=
  mkAnalysisResult false (9 # 10)
    (Some [mkProductAnalysis "v1|456" (8 # 10) "Same purpose";
           mkProductAnalysis "v1|123" (3 # 10) ""])
    "Similar products exist." (mkTruthScores 1 1 1 1).

Definition parse_ok : string -> Exc AnalysisResult := fun _ => Ok analysis1.
Definition parse_fail : string -> Exc AnalysisResult := fun _ => Throw (ErrorObj "Unexpected token").

Definition st0 : St := mkSt None [].

(** A state whose cached token is still far from expiry at [w_now = 1000]. *)
Definition st_cached : St := mkSt (Some (mkCachedToken "cached" 10000000)) [].

Definition dummy_search : EbaySearchResult := mkEbaySearchResult false [] 0 "" None.
Definition dummy_result : NoveltyResult :=
  mkNoveltyResult "" false 0 [] "" zero_truth "" 0.

(** The value of a run that did not throw. *)
Definition ok_or {A} (d : A) (p : Exc A * St) : A :=
  match fst p with Ok a => a | Throw _ => d end.

Definition fetch_of (w : World) : Exc EbaySearchResult * St :=
  searchSimilarProducts w (invention_name request1) (description request1) (key_features request1) st0.

Definition run_of (parse : string -> Exc AnalysisResult) (w : World) : Exc NoveltyResult * St :=
  runRetailSearchAgent parse w request1 st0.

Definition world_one_failing : World := configured_world [prod1] (Throw NonError).
Definition world_two_scored : World := configured_world [prod1; prod2] (Ok [TextBlock "{}"]).
Definition world_none : World := configured_world [] (Ok [TextBlock "{}"]).

(** A product located by country only. *)
Definition prod3 : EbayProduct :=
  mkEbayProduct "v1|789" "Solar Power Bank" "https://www.ebay.com/itm/789"
    None None "New" None None (Some (mkItemLocation "" "" "US")).

(** Two users; a conversation and a memory of [u2] use a project of [u1]. *)
Definition sample_db : Schema.DB :=
  Schema.mkDB ["u1"; "u2"]
    [Schema.mkProfile "u1" "a@example.com"; Schema.mkProfile "u2" "b@example.com"]
    [Schema.mkProject "p1" "u1" "Solar case"; Schema.mkProject "p2" "u2" "Lamp"]
    [Schema.mkConversation "c1" "u1" (Some "p1") None;
     Schema.mkConversation "c2" "u2" (Some "p1") (Some "Shared idea");
     Schema.mkConversation "c3" "u2" (Some "p2") None]
    [Schema.mkMessage "m1" "c1" "Hello"; Schema.mkMessage "m2" "c2" "Hi";
     Schema.mkMessage "m3" "c3" "Lamp ideas"]
    [Schema.mkMemory "a1" "u2" (Some "p1") "{}"; Schema.mkMemory "a2" "u1" None "{}";
     Schema.mkMemory "a3" "u2" (Some "p2") "{}"].

Definition opts0 : SearchOptions := mkSearchOptions None None None None.

(** The oracle answers a confidence of 1.5. *)
Definition parse_high : string -> Exc AnalysisResult :=
  fun _ => Ok (mkAnalysisResult false (3 # 2) None "Similar products exist." (mkTruthScores 1 1 1 1)).

(** A Browse API answering 401 with a body whose reading fails, and one
    answering 401 with a readable body; the cached token is valid. *)
Definition world_401 (body : Exc string) : World :=
  mkWorld (Some "id") (Some "secret") 1000
    (fun _ => FetchReject NonError)
    (fun _ _ => FetchResp 401 body (Throw NonError))
    (fun _ _ => Throw NonError).

End Samples.

(* ------------------------------------------------------------------ *)
(** ** Predicates used by the specification *)

(** Number of calls to the scoring oracle in a trace. *)
Definition oracle_calls (l : list ExtCall) : nat :=
  length (filter (fun c => match c with CallOracle => true | _ => false end) l).

(** A computation that never calls the scoring oracle. *)
Definition no_oracle {A} (m : M A) : Prop :=
  forall s, oracle_calls (trace (snd (m s))) = oracle_calls (trace s).

(** [b] comes after [a] in an order by descending similarity score. *)
Definition score_desc (a b : NoveltyFinding) : Prop :=
  (similarity_score b <= similarity_score a)%Q.

Definition score_is (v : Q) (f : NoveltyFinding) : bool :=
  Qeq_bool (similarity_score f) v.

(** The scoring oracle fails: the call rejects, or its answer has no
    first content block, a non-text one, or text [JSON.parse] rejects. *)
Definition oracle_failed (JSON_parse : string -> Exc AnalysisResult) (w : World)
    (request : NoveltyCheckRequest) (prods : list EbayProduct) : Prop :=
  match w_oracle w request prods with
  | Throw _ => True
  | Ok [] => True
  | Ok (OtherBlock :: _) => True
  | Ok (TextBlock text :: _) => exists e, JSON_parse (extract_json text) = Throw e
  end.

(** The per-product analyses the oracle produced, [[]] when it failed. *)
Definition oracle_analyses (JSON_parse : string -> Exc AnalysisResult) (w : World)
    (request : NoveltyCheckRequest) (prods : list EbayProduct) : list ProductAnalysis :=
  match w_oracle w request prods with
  | Ok (TextBlock text :: _) =>
      match JSON_parse (extract_json text) with
      | Ok a => match product_analyses a with Some l => l | None => [] end
      | Throw _ => []
      end
  | _ => []
  end.

(** The result of the successful-scoring branch: the fetch succeeded
    with products, and the oracle's first block is text that parses to
    [a]. *)
Definition scoring_branch (JSON_parse : string -> Exc AnalysisResult) (w : World)
    (request : NoveltyCheckRequest) (s : St) (r : EbaySearchResult) (s1 : St)
    (text : string) (rest : list ContentBlock) (a : AnalysisResult) : Prop :=
  isEbayConfigured w = true
  /\ searchSimilarProducts w (invention_name request) (description request)
       (key_features request) s = (Ok r, s1)
  /\ success r = true /\ products r <> []
  /\ w_oracle w request (products r) = Ok (TextBlock text :: rest)
  /\ JSON_parse (extract_json text) = Ok a.

Definition in01 (q : Q) : Prop := (0 <= q /\ q <= 1)%Q.

Definition truth_in01 (t : TruthScores) : Prop :=
  in01 (objective_truth t) /\ in01 (practical_truth t)
  /\ in01 (completeness t) /\ in01 (contextual_scope t).

Definition result_in01 (res : NoveltyResult) : Prop :=
  in01 (confidence res) /\ truth_in01 (truth_scores res)
  /\ Forall (fun f => in01 (similarity_score f)) (findings res).

Definition analysis_in01 (a : AnalysisResult) : Prop :=
  in01 (a_confidence a) /\ truth_in01 (a_truth_scores a)
  /\ (forall l, product_analyses a = Some l -> Forall (fun pa => in01 (pa_similarity_score pa)) l).

(** Every finding of a result carries the score of the oracle analysis
    matching its item id, or the placeholder 0 when none matches. *)
Definition scores_resolved (m : list ProductAnalysis) (res : NoveltyResult) : Prop :=
  forall f, In f (findings res) ->
    (exists a, map_get m (item_id (metadata f)) = Some a
               /\ similarity_score f = pa_similarity_score a)
    \/ (map_get m (item_id (metadata f)) = None /\ similarity_score f = 0).

(** A finding whose score an oracle analysis produced: some answer of the
    oracle parses to an analysis listing the finding's item with that score. *)
Definition oracle_resolved (JSON_parse : string -> Exc AnalysisResult) (w : World)
    (request : NoveltyCheckRequest) (f : NoveltyFinding) : Prop :=
  exists prods text rest a l pa,
    w_oracle w request prods = Ok (TextBlock text :: rest)
    /\ JSON_parse (extract_json text) = Ok a
    /\ product_analyses a = Some l /\ In pa l
    /\ pa_item_id pa = item_id (metadata f)
    /\ pa_similarity_score pa = similarity_score f.

(** The findings of phase 1 with the oracle's scores applied, in the
    order of the eBay results. *)
Definition scored_findings (a : AnalysisResult) (prods : list EbayProduct) : list NoveltyFinding :=
  map (apply_analysis (match product_analyses a with Some l => l | None => [] end))
    (map ebayProductToFinding prods).

Module SampleRuns.
Import Samples.

Example similar_products_query_ex :
  similar_products_query "The Smart  Solar Phone Case" (Some ["Charges the phone"; "solar"]) =
  "solar phone case charges".
Proof. reflexivity. Qed.

Example toLowerCase_latin1 :
  toLowerCase (String "201"%char "CLAIR") = String "233"%char "clair".
Proof. reflexivity. Qed.

Example toLowerCase_times_sign :
  toLowerCase (String "215"%char "X") = String "215"%char "x".
Proof. reflexivity. Qed.

Example split_ws_nbsp :
  split_ws ("solar" ++ String "160"%char "case") = ["solar"; "case"].
Proof. reflexivity. Qed.

Example extract_json_ex :
  extract_json ("  Here:" ++ nl ++ "```json" ++ nl ++ "{}" ++ nl ++ "```" ++ nl) = "{}".
Proof. reflexivity. Qed.

Example extract_json_plain : extract_json (" [1, 2] " ++ nl) = "[1, 2]".
Proof. reflexivity. Qed.


Example finding_of_prod1 :
  ebayProductToFinding prod1 =
  mkNoveltyFinding "Solar Phone Case" "New - Solar Phone Case" "https://www.ebay.com/itm/123" 0 "eBay"
    (mkFindingMetadata "v1|123" "USD 19.99" "" None None None (Some "Cases, Solar") (Some "CA, US")).
Proof. reflexivity. Qed.

Example query_of_request1 :
  similar_products_query (invention_name request1) (key_features request1) = "solar phone case charging".
Proof. reflexivity. Qed.

Example run_scored :
  option_map (fun r => (map (fun f => (item_id (metadata f), similarity_score f, f_description f)) (findings r),
                        confidence r))
    (match fst (runRetailSearchAgent parse_ok (configured_world [prod1; prod2] (Ok [TextBlock "{}"])) request1 st0)
     with Ok r => Some r | Throw _ => None end)
  = Some ([("v1|456", 8 # 10, "Same purpose"); ("v1|123", 3 # 10, "New - Solar Phone Case")], 9 # 10).
Proof. vm_compute. reflexivity. Qed.

Example run_trace_scored :
  trace (snd (runRetailSearchAgent parse_ok (configured_world [prod1] (Ok [TextBlock "{}"])) request1 st0))
  = [CallOAuth; CallSearch [("q", "solar phone case charging"); ("limit", "15"); ("offset", "0")]; CallOracle].
Proof. vm_compute. reflexivity. Qed.

Example run_parse_failure :
  option_map (fun r => (confidence r, summary r))
    (match fst (runRetailSearchAgent parse_fail (configured_world [prod1; prod2] (Ok [TextBlock "oops"])) request1 st0)
     with Ok r => Some r | Throw _ => None end)
  = Some (3 # 10, "Found 2 potentially similar products on eBay, but analysis failed. Manual review recommended.").
Proof. vm_compute. reflexivity. Qed.

Example run_unconfigured :
  option_map confidence
    (match fst (runRetailSearchAgent parse_ok unconfigured_world request1 st0) with Ok r => Some r | Throw _ => None end)
  = Some 0.
Proof. vm_compute. reflexivity. Qed.

End SampleRuns.

(* ================================================================== *)
(** * Properties *)

(** ** Monad and client lemmas *)

Lemma try_catch_total {A} (m : M A) (h : thrown -> M A) :
  (forall e s, exists a s', h e s = (Ok a, s')) ->
  forall s, exists a s', try_catch m h s = (Ok a, s').
Proof.
  intros Hh s. unfold try_catch.
  destruct (m s) as [[a|e] s'].
  - eauto.
  - apply Hh.
Qed.

Lemma searchEbay_total w query options s :
  exists r s', searchEbay w query options s = (Ok r, s').
Proof.
  apply try_catch_total. intros e s'. do 2 eexists. reflexivity.
Qed.

Ltac split_matches :=
  repeat match goal with
         | |- context [match ?x with _ => _ end] =>
             lazymatch x with
             | context [match _ with _ => _ end] => fail
             | _ => destruct x eqn:?
             end
         end.

Ltac split_matches_in H :=
  repeat (match type of H with
          | context [match ?x with _ => _ end] =>
              lazymatch x with
              | context [match _ with _ => _ end] => fail
              | _ => destruct x eqn:?
              end
          end; cbn in H).

Ltac unfold_M :=
  unfold bind, lift, throw, ret, set_cachedToken, record_call, get_st, try_catch in *.

Ltac oracle_count :=
  unfold oracle_calls; cbn [trace snd];
  rewrite ?filter_app, ?length_app; cbn; lia.

Lemma getAccessToken_no_oracle w : no_oracle (getAccessToken w).
Proof.
  intros s. unfold getAccessToken.
  destruct (negb (truthy (EBAY_CLIENT_ID w)) || negb (truthy (EBAY_CLIENT_SECRET w)));
    unfold_M; cbn; split_matches; oracle_count.
Qed.

Lemma searchEbay_no_oracle w query options : no_oracle (searchEbay w query options).
Proof.
  intros s. unfold searchEbay. unfold try_catch, bind at 1.
  pose proof (getAccessToken_no_oracle w s) as Hg.
  destruct (getAccessToken w s) as [[tok|e] s1]; cbn in Hg |- *; [|exact Hg].
  unfold_M; cbn; split_matches; cbn; rewrite <- Hg; oracle_count.
Qed.

Lemma getAccessToken_configured w :
  isEbayConfigured w = true ->
  getAccessToken w =
    (s <- get_st ;;
     let hit :=
       match cachedToken s with
       | Some c => if (w_now w + refresh_buffer <? ct_expiresAt c)%Z then Some c else None
       | None => None
       end in
     match hit with
     | Some c => ret (ct_token c)
     | None =>
         record_call CallOAuth ;;;
         match w_oauth w (basic_credentials (EBAY_CLIENT_ID w) (EBAY_CLIENT_SECRET w)) with
         | FetchReject e => throw e
         | FetchResp status text json =>
             if negb (resp_ok status) then
               errorText <- lift text ;;
               throw (ErrorObj ("eBay OAuth failed (" ++ Z_to_string status ++ "): " ++ errorText))
             else
               data <- lift json ;;
               set_cachedToken (Some (mkCachedToken (access_token data)
                                        (w_now w + expires_in data * 1000)%Z)) ;;;
               ret (access_token data)
         end
     end).
Proof.
  unfold isEbayConfigured, getAccessToken. intros H.
  apply andb_true_iff in H as [H1 H2]. rewrite H1, H2. reflexivity.
Qed.

(** ** C8: the OAuth token cache *)

(** C8: with credentials configured, [getAccessToken] returns the cached
    token without any call exactly when its recorded expiry is more than
    the 5 minute buffer ahead of [Date.now()]; otherwise it calls the OAuth
    endpoint, and a token it returns is the fresh one, cached with expiry
    [now + expires_in * 1000] ms ([expires_in] is in seconds).  Hence every
    token returned from the cache has an expiry in the future; a failed
    refresh throws and leaves the cache as it was. *)
Theorem getAccessToken_cache_policy (w : World) (s : St)
    (Hconf : isEbayConfigured w = true) :
  (forall c, cachedToken s = Some c -> (w_now w + refresh_buffer < ct_expiresAt c)%Z ->
     getAccessToken w s = (Ok (ct_token c), s))
  /\
  ((forall c, cachedToken s = Some c -> (ct_expiresAt c <= w_now w + refresh_buffer)%Z) ->
     trace (snd (getAccessToken w s)) = app (trace s) [CallOAuth])
  /\
  (forall tok s', getAccessToken w s = (Ok tok, s') ->
     (s' = s /\ exists c, cachedToken s = Some c /\ ct_token c = tok
                          /\ (w_now w + refresh_buffer < ct_expiresAt c)%Z
                          /\ (w_now w < ct_expiresAt c)%Z)
     \/
     ((forall c, cachedToken s = Some c -> (ct_expiresAt c <= w_now w + refresh_buffer)%Z)
      /\ exists status text data,
           w_oauth w (basic_credentials (EBAY_CLIENT_ID w) (EBAY_CLIENT_SECRET w))
             = FetchResp status text (Ok data)
           /\ resp_ok status = true
           /\ tok = access_token data
           /\ s' = mkSt (Some (mkCachedToken tok (w_now w + expires_in data * 1000)%Z))
                        (app (trace s) [CallOAuth])))
  /\
  (forall e s', getAccessToken w s = (Throw e, s') -> cachedToken s' = cachedToken s).
Proof.
  rewrite (getAccessToken_configured w Hconf).
  replace refresh_buffer with 300000%Z by reflexivity.
  split; [|split; [|split]].
  - intros c Hc Hlt. unfold_M. cbn. rewrite Hc.
    apply Z.ltb_lt in Hlt. rewrite Hlt. reflexivity.
  - intros Hold. unfold_M. cbn.
    destruct (cachedToken s) as [c|] eqn:Hc.
    + specialize (Hold c eq_refl).
      assert (Hf : (w_now w + 300000 <? ct_expiresAt c)%Z = false) by (apply Z.ltb_ge; lia).
      rewrite Hf. split_matches; reflexivity.
    + split_matches; reflexivity.
  - intros tok s' H. unfold_M. cbn in H.
    destruct (cachedToken s) as [c|] eqn:Hc.
    + destruct (w_now w + 300000 <? ct_expiresAt c)%Z eqn:Hlt.
      * left. injection H as <- <-. apply Z.ltb_lt in Hlt.
        split; [reflexivity|]. exists c. repeat split; auto; lia.
      * right. split.
        { intros c' Hc'. injection Hc' as Heq. subst c'. apply Z.ltb_ge in Hlt. lia. }
        split_matches_in H; try discriminate.
        injection H as <- <-. do 3 eexists. repeat split; eauto; apply negb_false_iff; assumption.
    + right. split; [intros c' Hc'; discriminate|].
      split_matches_in H; try discriminate.
      injection H as <- <-. do 3 eexists. repeat split; eauto; apply negb_false_iff; assumption.
  - intros e s' H. unfold_M. cbn in H.
    split_matches_in H; try discriminate; injection H as <- <-; cbn; congruence.
Qed.

(** ** The sort of the scored findings *)

Lemma score_cmp_nonpos x y :
  Qle_bool (score_cmp x y) 0 = true <-> score_desc x y.
Proof.
  unfold score_cmp, score_desc. rewrite Qle_bool_iff. split; intros; lra.
Qed.

Lemma insert_finding_perm x l : Permutation (insert_finding x l) (x :: l).
Proof.
  induction l as [|y r IH]; cbn; [reflexivity|].
  destruct (Qle_bool (score_cmp x y) 0); [reflexivity|].
  rewrite IH. apply perm_swap.
Qed.

Lemma sort_findings_perm l : Permutation (sort_findings l) l.
Proof.
  induction l as [|x r IH]; cbn; [reflexivity|].
  rewrite insert_finding_perm. now apply perm_skip.
Qed.

Lemma insert_finding_hdrel y x l :
  score_desc y x -> HdRel score_desc y l -> HdRel score_desc y (insert_finding x l).
Proof.
  intros Hyx Hl. destruct l as [|z r]; cbn.
  - now constructor.
  - destruct (Qle_bool (score_cmp x z) 0); constructor; auto.
    now inversion Hl.
Qed.

Lemma insert_finding_sorted x l :
  Sorted score_desc l -> Sorted score_desc (insert_finding x l).
Proof.
  induction 1 as [|y r Hr IH Hy]; cbn.
  - repeat constructor.
  - destruct (Qle_bool (score_cmp x y) 0) eqn:Hc.
    + apply score_cmp_nonpos in Hc. constructor; [constructor; auto | now constructor].
    + constructor; [exact IH|].
      apply insert_finding_hdrel; [|exact Hy].
      unfold score_desc. rewrite <- not_true_iff_false, score_cmp_nonpos in Hc.
      unfold score_desc in Hc. lra.
Qed.

Lemma sort_findings_sorted l : Sorted score_desc (sort_findings l).
Proof.
  induction l; cbn; [constructor | now apply insert_finding_sorted].
Qed.

(** Inserting keeps the relative order of the elements of one score. *)
Lemma insert_finding_stable v x l :
  filter (score_is v) (insert_finding x l) = filter (score_is v) (x :: l).
Proof.
  induction l as [|y r IH]; cbn; [reflexivity|].
  destruct (Qle_bool (score_cmp x y) 0) eqn:Hc; [reflexivity|].
  rewrite <- not_true_iff_false, score_cmp_nonpos in Hc. unfold score_desc in Hc.
  cbn. rewrite IH. cbn.
  destruct (score_is v y) eqn:Hy, (score_is v x) eqn:Hx; auto.
  unfold score_is in Hx, Hy. apply Qeq_bool_iff in Hx, Hy. lra.
Qed.

Lemma sort_findings_stable v l :
  filter (score_is v) (sort_findings l) = filter (score_is v) l.
Proof.
  induction l as [|x r IH]; cbn; [reflexivity|].
  rewrite insert_finding_stable. cbn. now rewrite IH.
Qed.

(** ** The retail agent after the fetch *)

Lemma getAccessToken_unconfigured w s :
  isEbayConfigured w = false ->
  getAccessToken w s = (Throw (ErrorObj credentials_missing_msg), s).
Proof.
  unfold isEbayConfigured, getAccessToken. intros H.
  apply andb_false_iff in H as [H|H]; rewrite H; cbn;
    [reflexivity | now rewrite orb_true_r].
Qed.

Lemma searchEbay_unconfigured_eq w query options s :
  isEbayConfigured w = false ->
  searchEbay w query options s
  = (Ok (mkEbaySearchResult false [] 0 query (Some credentials_missing_msg)), s).
Proof.
  intros Hc. unfold searchEbay, try_catch, bind at 1.
  rewrite (getAccessToken_unconfigured w s Hc). reflexivity.
Qed.

Lemma searchEbay_ok_shape w query options s r s' :
  searchEbay w query options s = (Ok r, s') ->
  searchQuery r = query
  /\ (success r = true <-> error r = None)
  /\ (success r = false -> products r = [] /\ total r = 0%Z).
Proof.
  unfold searchEbay, try_catch, bind at 1. intros H.
  destruct (getAccessToken w s) as [[tok|e] s1].
  2:{ injection H as <- _. cbn. repeat split; discriminate. }
  unfold_M. cbn in H. split_matches_in H; injection H as <- _;
    cbn; repeat split; try discriminate; auto.
Qed.

Lemma run_after_fetch JSON_parse w request s r s1 :
  isEbayConfigured w = true ->
  searchSimilarProducts w (invention_name request) (description request) (key_features request) s
    = (Ok r, s1) ->
  runRetailSearchAgent JSON_parse w request s = retail_after_fetch JSON_parse w request r s1.
Proof.
  intros Hc Hs. unfold runRetailSearchAgent. rewrite Hc. cbn [negb].
  unfold bind. now rewrite Hs.
Qed.

Lemma searchSimilarProducts_total w name desc features s :
  exists r s', searchSimilarProducts w name desc features s = (Ok r, s').
Proof. apply searchEbay_total. Qed.

Lemma searchSimilarProducts_no_products w request s r s1 :
  searchSimilarProducts w (invention_name request) (description request) (key_features request) s
    = (Ok r, s1) ->
  (isEbayConfigured w = false \/ success r = false) -> products r = [].
Proof.
  intros Hs [Hc|Hf].
  - unfold searchSimilarProducts in Hs. rewrite searchEbay_unconfigured_eq in Hs by exact Hc.
    now injection Hs as <- _.
  - now apply (searchEbay_ok_shape _ _ _ _ _ _ Hs).
Qed.

Lemma searchSimilarProducts_no_oracle w name desc features :
  no_oracle (searchSimilarProducts w name desc features).
Proof. apply searchEbay_no_oracle. Qed.

Lemma ebayProductToFinding_score p : similarity_score (ebayProductToFinding p) = 0.
Proof. reflexivity. Qed.

Lemma ebayProductToFinding_item p : item_id (metadata (ebayProductToFinding p)) = itemId p.
Proof. reflexivity. Qed.

Lemma apply_analysis_resolved m f :
  (exists a, map_get m (item_id (metadata (apply_analysis m f))) = Some a
             /\ similarity_score (apply_analysis m f) = pa_similarity_score a)
  \/ (map_get m (item_id (metadata (apply_analysis m f))) = None
      /\ similarity_score (apply_analysis m f) = similarity_score f).
Proof.
  unfold apply_analysis. destruct (map_get m (item_id (metadata f))) as [a|] eqn:E.
  - left. exists a. cbn. now rewrite E.
  - right. now rewrite E.
Qed.

(** ** C4: credentials not configured *)

(** C4: when the eBay credentials are not configured, [runRetailSearchAgent]
    returns, without throwing, a result with confidence 0, no findings and
    a non-empty explanatory summary, and leaves the state untouched: no
    external call is made and the token cache is not read or written. *)
Theorem retail_unconfigured_result (JSON_parse : string -> Exc AnalysisResult)
    (w : World) (request : NoveltyCheckRequest) (s : St)
    (Hunconf : isEbayConfigured w = false) :
  exists res, runRetailSearchAgent JSON_parse w request s = (Ok res, s)
    /\ confidence res = 0 /\ findings res = [] /\ summary res <> "".
Proof.
  unfold runRetailSearchAgent. rewrite Hunconf. cbn.
  eexists. split; [reflexivity|]. cbn.
  unfold getCredentialStatus. rewrite Hunconf.
  repeat split. discriminate.
Qed.

(** ** C3: no candidate products *)

(** C3: when the credentials are configured and the eBay fetch succeeds
    with zero products, the agent returns [is_novel = true] with a
    confidence below 1 and no findings, right after the fetch, and the
    scoring oracle is never called. *)
Theorem retail_zero_products_result (JSON_parse : string -> Exc AnalysisResult)
    (w : World) (request : NoveltyCheckRequest) (s : St) (r : EbaySearchResult) (s1 : St)
    (Hconf : isEbayConfigured w = true)
    (Hfetch : searchSimilarProducts w (invention_name request) (description request)
                (key_features request) s = (Ok r, s1))
    (Hok : success r = true) (Hnil : products r = []) :
  exists res, runRetailSearchAgent JSON_parse w request s = (Ok res, s1)
    /\ is_novel res = true /\ (confidence res < 1)%Q /\ findings res = []
    /\ oracle_calls (trace s1) = oracle_calls (trace s).
Proof.
  rewrite (run_after_fetch JSON_parse w request s r s1 Hconf Hfetch).
  unfold retail_after_fetch. rewrite Hok, Hnil. cbn.
  eexists. split; [reflexivity|]. cbn. repeat split.
  pose proof (searchSimilarProducts_no_oracle w (invention_name request) (description request)
                  (key_features request) s) as H.
  now rewrite Hfetch in H.
Qed.

(** ** C1: the scoring oracle fails *)

(** C1: when the fetch succeeded with at least one product and the
    scoring oracle rejects or answers something that cannot be parsed, the
    agent does not throw: it returns the unscored findings of phase 1 with
    the fixed low confidence 0.3 and a summary saying that the analysis
    failed and manual review is recommended. *)
Theorem retail_oracle_failure_fallback (JSON_parse : string -> Exc AnalysisResult)
    (w : World) (request : NoveltyCheckRequest) (s : St) (r : EbaySearchResult) (s1 : St)
    (Hconf : isEbayConfigured w = true)
    (Hfetch : searchSimilarProducts w (invention_name request) (description request)
                (key_features request) s = (Ok r, s1))
    (Hok : success r = true) (Hne : products r <> [])
    (Hfail : oracle_failed JSON_parse w request (products r)) :
  exists res s2, runRetailSearchAgent JSON_parse w request s = (Ok res, s2)
    /\ is_novel res = false
    /\ confidence res = 3 # 10
    /\ findings res = map ebayProductToFinding (products r)
    /\ Forall (fun f => similarity_score f = 0) (findings res)
    /\ summary res = "Found " ++ nat_to_string (length (products r))
                     ++ " potentially similar products on eBay, but analysis failed. Manual review recommended.".
Proof.
  rewrite (run_after_fetch JSON_parse w request s r s1 Hconf Hfetch).
  unfold retail_after_fetch. rewrite Hok. cbn [negb].
  assert (Hlen : Nat.eqb (length (products r)) 0 = false).
  { destruct (products r); [contradiction | reflexivity]. }
  rewrite Hlen. unfold oracle_failed in Hfail. unfold_M. cbn.
  destruct (w_oracle w request (products r)) as [content|e];
    [destruct content as [|[text|] rest]|]; cbn;
    [| destruct Hfail as [e Hp]; rewrite Hp; cbn | |];
    do 2 eexists; (split; [reflexivity|]); cbn;
    (repeat split; [|rewrite length_map; reflexivity]);
    rewrite Forall_map; apply Forall_forall; intros; reflexivity.
Qed.

Lemma map_get_in m k a : map_get m k = Some a -> In a m.
Proof.
  unfold map_get. intros H. apply find_some in H as [H _]. now apply in_rev.
Qed.

Lemma in_fallback_findings f prods :
  In f (map ebayProductToFinding prods) -> similarity_score f = 0.
Proof.
  intros H. apply in_map_iff in H as [p [<- _]]. reflexivity.
Qed.

Lemma in_scored_findings m f prods :
  In f (sort_findings (map (apply_analysis m) (map ebayProductToFinding prods))) ->
  (exists a, map_get m (item_id (metadata f)) = Some a /\ similarity_score f = pa_similarity_score a)
  \/ (map_get m (item_id (metadata f)) = None /\ similarity_score f = 0).
Proof.
  intros H. apply (Permutation_in _ (sort_findings_perm _)) in H.
  apply in_map_iff in H as [g [<- Hg]]. apply in_map_iff in Hg as [p [<- _]].
  destruct (apply_analysis_resolved m (ebayProductToFinding p)) as [Hl|[Hn Hs]].
  - now left.
  - right. split; [exact Hn|]. rewrite Hs. reflexivity.
Qed.

Lemma map_apply_analysis_nil l : map (apply_analysis []) l = l.
Proof. induction l as [|f l IH]; cbn; [reflexivity|]. now rewrite IH. Qed.

Lemma apply_analysis_unmatched m p :
  map_get m (itemId p) = None -> apply_analysis m (ebayProductToFinding p) = ebayProductToFinding p.
Proof. intros H. unfold apply_analysis. rewrite ebayProductToFinding_item, H. reflexivity. Qed.

(** ** C2: where the similarity scores of the findings come from *)

(** C2 (as the code does it): with [m] the per-product analyses of the
    oracle ([[]] when the oracle call failed or its answer could not be
    parsed), the findings returned by [runRetailSearchAgent] are exactly
    the eBay products of phase 1, each turned into a finding by
    [ebayProductToFinding] and then given the similarity score of the
    analysis of [m] whose [item_id] matches it (the last such analysis),
    in some order.  So every finding either carries a matching analysis's
    score or, when none matches, the placeholder 0; a product no analysis
    matches is still returned, not excluded; and when the oracle failed,
    the fallback returns every eBay product, in eBay order, with score 0. *)
Theorem retail_findings_score_origin (JSON_parse : string -> Exc AnalysisResult)
    (w : World) (request : NoveltyCheckRequest) (s : St) (r : EbaySearchResult) (s1 : St)
    (res : NoveltyResult) (s2 : St)
    (Hfetch : searchSimilarProducts w (invention_name request) (description request)
                (key_features request) s = (Ok r, s1))
    (Hrun : runRetailSearchAgent JSON_parse w request s = (Ok res, s2)) :
  scores_resolved (oracle_analyses JSON_parse w request (products r)) res
  /\ Permutation (findings res)
       (map (apply_analysis (oracle_analyses JSON_parse w request (products r)))
          (map ebayProductToFinding (products r)))
  /\ (forall p, In p (products r) ->
        map_get (oracle_analyses JSON_parse w request (products r)) (itemId p) = None ->
        In (ebayProductToFinding p) (findings res))
  /\ (oracle_failed JSON_parse w request (products r) ->
        findings res = map ebayProductToFinding (products r)
        /\ Forall (fun f => similarity_score f = 0) (findings res)).
Proof.
  match goal with |- ?G => assert (Hempty : products r = [] -> findings res = [] -> G) end.
  { intros Hp Hf. rewrite Hp, Hf. split; [intros f Hf'; rewrite Hf in Hf'; destruct Hf'|].
    split; [constructor|]. split; [intros p []|]. intros _. split; [reflexivity|constructor]. }
  destruct (isEbayConfigured w) eqn:Hc.
  2:{ apply Hempty.
      - apply (searchSimilarProducts_no_products w request s r s1 Hfetch). now left.
      - unfold runRetailSearchAgent in Hrun. rewrite Hc in Hrun. cbn in Hrun.
        now injection Hrun as <- <-. }
  rewrite (run_after_fetch JSON_parse w request s r s1 Hc Hfetch) in Hrun.
  unfold retail_after_fetch in Hrun.
  destruct (success r) eqn:Hsucc; cbn [negb] in Hrun.
  2:{ apply Hempty.
      - apply (searchSimilarProducts_no_products w request s r s1 Hfetch). now right.
      - cbn in Hrun. now injection Hrun as <- <-. }
  destruct (Nat.eqb (length (products r)) 0) eqn:Hlen.
  { apply Hempty.
    - apply length_zero_iff_nil. now apply Nat.eqb_eq.
    - cbn in Hrun. now injection Hrun as <- <-. }
  clear Hempty. unfold oracle_analyses, oracle_failed. unfold_M. cbn in Hrun.
  destruct (w_oracle w request (products r)) as [[|[text|] rest]|e];
    [| destruct (JSON_parse (extract_json text)) as [a|e] | |]; cbn in Hrun;
    injection Hrun as <- <-; cbn [findings];
    try (rewrite map_apply_analysis_nil;
         split; [intros f Hf; right; split; [reflexivity | exact (in_fallback_findings f _ Hf)]|];
         split; [reflexivity|]; split; [intros p Hp _; now apply in_map|];
         intros _; split; [reflexivity|];
         apply Forall_forall; intros f Hf; exact (in_fallback_findings f _ Hf)).
  split; [intros f Hf; exact (in_scored_findings _ f _ Hf)|].
  split; [apply sort_findings_perm|].
  split.
  - intros p Hp Hnone. apply (Permutation_in _ (Permutation_sym (sort_findings_perm _))).
    rewrite <- (apply_analysis_unmatched _ _ Hnone). now apply in_map, in_map.
  - intros [e He]. discriminate He.
Qed.

(** ** C5: ranges of the numbers in a result *)

Ltac in01_const := unfold in01; split; lra.

Ltac range_fixed :=
  unfold result_in01, truth_in01, in01, zero_truth;
  cbn [confidence truth_scores findings objective_truth practical_truth
       completeness contextual_scope];
  repeat split; try lra; try constructor.

(** C5 (as the code does it): a result of [runRetailSearchAgent] comes
    either from the successful-scoring branch or from another one.  On
    the successful-scoring branch the confidence and the four truth scores
    are those of the oracle's parsed answer, copied verbatim with no range
    check, and each similarity score is 0 or the score of one of the
    oracle's per-product analyses; so the result is in [0,1] whenever the
    oracle's analysis is.  On the unconfigured, fetch-failure, no-product
    and oracle-failure branches the confidence, the truth scores and every
    similarity score lie in [0,1], whatever the oracle does. *)
Theorem retail_result_in_unit_range (JSON_parse : string -> Exc AnalysisResult)
    (w : World) (request : NoveltyCheckRequest) (s : St) (res : NoveltyResult) (s2 : St)
    (Hrun : runRetailSearchAgent JSON_parse w request s = (Ok res, s2)) :
  (exists r s1 text rest a,
      scoring_branch JSON_parse w request s r s1 text rest a
      /\ confidence res = a_confidence a
      /\ truth_scores res = a_truth_scores a
      /\ Forall (fun f => similarity_score f = 0
                          \/ exists l pa, product_analyses a = Some l /\ In pa l
                                          /\ similarity_score f = pa_similarity_score pa)
           (findings res)
      /\ (analysis_in01 a -> result_in01 res))
  \/ (result_in01 res
      /\ forall r s1, searchSimilarProducts w (invention_name request) (description request)
                       (key_features request) s = (Ok r, s1) ->
          isEbayConfigured w = false \/ success r = false \/ products r = []
          \/ oracle_failed JSON_parse w request (products r)).
Proof.
  destruct (isEbayConfigured w) eqn:Hc.
  2:{ right. unfold runRetailSearchAgent in Hrun. rewrite Hc in Hrun. cbn in Hrun.
      injection Hrun as <- <-. split; [range_fixed | intros r s1 _; now left]. }
  destruct (searchSimilarProducts_total w (invention_name request) (description request)
              (key_features request) s) as [r [s1 Hfetch]].
  rewrite (run_after_fetch JSON_parse w request s r s1 Hc Hfetch) in Hrun.
  unfold retail_after_fetch in Hrun.
  destruct (success r) eqn:Hsucc; cbn [negb] in Hrun.
  2:{ right. cbn in Hrun. injection Hrun as <- <-. split; [range_fixed|].
      intros r' s1' Hf. rewrite Hfetch in Hf. injection Hf as <- <-. right. now left. }
  destruct (Nat.eqb (length (products r)) 0) eqn:Hlen.
  { right. cbn in Hrun. injection Hrun as <- <-. split; [range_fixed|].
    intros r' s1' Hf. rewrite Hfetch in Hf. injection Hf as <- <-. right. right. left.
    apply length_zero_iff_nil. now apply Nat.eqb_eq. }
  unfold_M. cbn in Hrun.
  destruct (w_oracle w request (products r)) as [[|[text|] rest]|e] eqn:Ho;
    [| destruct (JSON_parse (extract_json text)) as [a|e] eqn:Hp | |]; cbn in Hrun;
    injection Hrun as <- <-;
    try (right; split;
         [range_fixed;
          apply Forall_forall; intros f Hf; rewrite (in_fallback_findings f _ Hf); split; lra
         |intros r' s1' Hf; rewrite Hfetch in Hf; injection Hf as <- <-; right; right; right;
          unfold oracle_failed; rewrite Ho; try rewrite Hp; eauto]).
  left. exists r, s1, text, rest, a.
  split.
  { repeat split; auto. intros E. rewrite E in Hlen. discriminate Hlen. }
  split; [reflexivity|]. split; [reflexivity|].
  split.
  { apply Forall_forall. intros f Hf.
    destruct (in_scored_findings _ _ _ Hf) as [[pa [Hget Hs]]|[_ Hs]]; [right|now left].
    apply map_get_in in Hget.
    destruct (product_analyses a) as [l|] eqn:Hl; [|destruct Hget].
    exists l, pa. auto. }
  intros [Hconf [Htruth Hpa]].
  split; [exact Hconf|]. split; [exact Htruth|]. cbn.
  apply Forall_forall. intros f Hf.
  destruct (in_scored_findings _ _ _ Hf) as [[pa [Hget Hs]]|[_ Hs]]; rewrite Hs.
  - apply map_get_in in Hget.
    destruct (product_analyses a) as [l|] eqn:Hl.
    + exact (proj1 (Forall_forall _ _) (Hpa l eq_refl) pa Hget).
    + destruct Hget.
  - in01_const.
Qed.


(** ** C9: order of the scored findings *)

(** C9: on the successful-scoring branch the returned findings are the
    scored findings sorted by similarity score, highest first; findings
    of equal score keep the order of the eBay results. *)
Theorem retail_scored_findings_sorted (JSON_parse : string -> Exc AnalysisResult)
    (w : World) (request : NoveltyCheckRequest) (s : St) (r : EbaySearchResult) (s1 : St)
    (text : string) (rest : list ContentBlock) (a : AnalysisResult)
    (Hconf : isEbayConfigured w = true)
    (Hfetch : searchSimilarProducts w (invention_name request) (description request)
                (key_features request) s = (Ok r, s1))
    (Hok : success r = true) (Hne : products r <> [])
    (Horacle : w_oracle w request (products r) = Ok (TextBlock text :: rest))
    (Hparse : JSON_parse (extract_json text) = Ok a) :
  exists res s2, runRetailSearchAgent JSON_parse w request s = (Ok res, s2)
    /\ Sorted score_desc (findings res)
    /\ Permutation (findings res) (scored_findings a (products r))
    /\ forall v, filter (score_is v) (findings res) = filter (score_is v) (scored_findings a (products r)).
Proof.
  rewrite (run_after_fetch JSON_parse w request s r s1 Hconf Hfetch).
  unfold retail_after_fetch. rewrite Hok. cbn [negb].
  assert (Hlen : Nat.eqb (length (products r)) 0 = false).
  { destruct (products r); [contradiction | reflexivity]. }
  rewrite Hlen. unfold_M. cbn. rewrite Horacle. cbn. rewrite Hparse. cbn.
  do 2 eexists. split; [reflexivity|]. cbn.
  split; [apply sort_findings_sorted|].
  split; [apply sort_findings_perm|].
  intros v. apply sort_findings_stable.
Qed.

(** ** The search cache *)

Module SearchCacheFacts.
Import SearchCache.

Lemma length_filter_partition {A} (p : A -> bool) (l : list A) :
  length l = (length (filter p l) + length (filter (fun x => negb (p x)) l))%nat.
Proof.
  induction l as [|x r IH]; cbn; [reflexivity|].
  destruct (p x); cbn; lia.
Qed.

Lemma expired_iff now r :
  expired now r = true <-> exists e, expires_at r = Some e /\ (e < now)%Z.
Proof.
  unfold expired. destruct (expires_at r) as [e|]; split.
  - intros H. exists e. split; [reflexivity|]. now apply Z.ltb_lt.
  - intros [e' [He Hlt]]. injection He as <-. now apply Z.ltb_lt.
  - discriminate.
  - intros [e' [He _]]. discriminate.
Qed.

(** C6: [cleanup_expired_cache] keeps exactly the rows that do not have a
    non-null [expires_at] earlier than [now], unchanged and in their
    order, returns the number of rows it removed, and a second run at the
    same clock value removes nothing. *)
Theorem cleanup_expired_cache_spec (now : Z) (t : Table) :
  let t' := fst (cleanup_expired_cache now t) in
  (forall r, In r t' <-> In r t /\ ~ (exists e, expires_at r = Some e /\ (e < now)%Z))
  /\ t' = filter (fun r => negb (expired now r)) t
  /\ snd (cleanup_expired_cache now t) = (length t - length t')%nat
  /\ snd (cleanup_expired_cache now t') = 0%nat.
Proof.
  cbn. split; [|split; [reflexivity|split]].
  - intros r. rewrite filter_In, <- expired_iff.
    destruct (expired now r); cbn; intuition discriminate.
  - rewrite (length_filter_partition (expired now) t). lia.
  - induction t as [|x r IH]; cbn; [reflexivity|].
    destruct (expired now x) eqn:E; cbn; [exact IH|].
    rewrite E. exact IH.
Qed.

Lemma nodupb_NoDup l : nodupb l = true <-> NoDup l.
Proof.
  induction l as [|x r IH]; cbn.
  - split; [constructor | reflexivity].
  - rewrite andb_true_iff, negb_true_iff, IH. split.
    + intros [Hx Hr]. constructor; [|exact Hr].
      intros Hin. assert (existsb (String.eqb x) r = true) as Hc.
      { apply existsb_exists. exists x. split; [exact Hin | apply String.eqb_refl]. }
      congruence.
    + intros Hn. inversion Hn as [|? ? Hx Hr]. split; [|exact Hr].
      destruct (existsb (String.eqb x) r) eqn:E; [|reflexivity].
      apply existsb_exists in E as [y [Hy Hxy]]. apply String.eqb_eq in Hxy. subst y. contradiction.
Qed.

Lemma NoDup_map_filter {A B} (f : A -> B) (p : A -> bool) l :
  NoDup (map f l) -> NoDup (map f (filter p l)).
Proof.
  induction l as [|x r IH]; cbn; [auto|].
  intros Hn. inversion Hn as [|? ? Hx Hr]. destruct (p x); cbn; [|auto].
  constructor; [|auto].
  intros Hin. apply Hx. apply in_map_iff in Hin as [y [Hy Hyin]].
  apply filter_In in Hyin as [Hyin _]. rewrite <- Hy. now apply in_map.
Qed.

Lemma exec_nodup t s :
  NoDup (map query_hash t) -> NoDup (map query_hash (exec t s)).
Proof.
  intros Ht. destruct s as [r|r|p f|p]; cbn -[stmt_effect];
    try (destruct (nodupb (map query_hash (stmt_effect t _))) eqn:E;
         [now apply nodupb_NoDup | exact Ht]).
  now apply NoDup_map_filter.
Qed.

Lemma run_op_nodup t o :
  NoDup (map query_hash t) -> NoDup (map query_hash (run_op t o)).
Proof.
  intros Ht. destruct o; cbn -[exec]; try apply exec_nodup; auto.
  now apply NoDup_map_filter.
Qed.

Lemma run_ops_nodup ops : forall t,
  NoDup (map query_hash t) -> NoDup (map query_hash (run_ops t ops)).
Proof.
  induction ops as [|o rest IH]; intros t Ht; cbn; [exact Ht|].
  apply IH. now apply run_op_nodup.
Qed.

Lemma filter_none {A} (p : A -> bool) l :
  existsb p l = false -> filter p l = [].
Proof.
  induction l as [|x r IH]; cbn; [auto|].
  destruct (p x); cbn; [discriminate | auto].
Qed.

Lemma filter_unique h t :
  NoDup (map query_hash t) -> existsb (same_hash h) t = true ->
  exists x, filter (same_hash h) t = [x] /\ same_hash h x = true.
Proof.
  induction t as [|x r IH]; cbn; [discriminate|].
  intros Hn He. inversion Hn as [|? ? Hx Hr].
  destruct (same_hash h x) eqn:Ex.
  - exists x. split; [|exact Ex]. f_equal. apply filter_none.
    destruct (existsb (same_hash h) r) eqn:E; [|reflexivity].
    apply existsb_exists in E as [y [Hy Hyh]]. exfalso. apply Hx.
    unfold same_hash in Ex, Hyh. apply String.eqb_eq in Ex, Hyh.
    rewrite Ex, <- Hyh. now apply in_map.
  - cbn in He. now apply IH.
Qed.

Lemma upsert_hash_preserved h r t :
  map query_hash (map (fun x => if same_hash h x then upsert_merge x r else x) t)
  = map query_hash t.
Proof.
  induction t as [|x rest IH]; cbn; [reflexivity|].
  rewrite IH. destruct (same_hash h x); reflexivity.
Qed.

Lemma put_commits t fp nid ty params res api ttl now :
  NoDup (map query_hash t) ->
  exists row, filter (same_hash fp) (run_op t (OpPut fp nid ty params res api ttl now)) = [row]
    /\ query_hash row = fp
    /\ results row = res
    /\ result_count row = Z.of_nat (length res)
    /\ source_api row = api
    /\ query_params row = params
    /\ search_type row = ty
    /\ expires_at row = expires_at (put_row fp nid ty params res api ttl now).
Proof.
  intros Ht. cbn -[stmt_effect put_row]. unfold stmt_effect.
  change (query_hash (put_row fp nid ty params res api ttl now)) with fp.
  set (r := put_row fp nid ty params res api ttl now).
  destruct (existsb (same_hash fp) t) eqn:E.
  - rewrite upsert_hash_preserved.
    assert (Hb : nodupb (map query_hash t) = true) by now apply nodupb_NoDup.
    rewrite Hb.
    destruct (filter_unique fp t Ht E) as [x [Hf Hx]].
    exists (upsert_merge x r).
    assert (Hcomm : forall l, filter (same_hash fp)
              (map (fun y => if same_hash fp y then upsert_merge y r else y) l)
            = map (fun y => upsert_merge y r) (filter (same_hash fp) l)).
    { induction l as [|y l IH]; cbn; [reflexivity|].
      destruct (same_hash fp y) eqn:Ey; cbn.
      - unfold same_hash in Ey |- *. cbn. rewrite Ey. cbn. now f_equal.
      - rewrite Ey. exact IH. }
    rewrite Hcomm, Hf. cbn. split; [reflexivity|].
    unfold same_hash in Hx. apply String.eqb_eq in Hx.
    repeat split; assumption || reflexivity.
  - assert (Hnd : NoDup (map query_hash (app t [r]))).
    { rewrite map_app. apply (Permutation_NoDup (l := fp :: map query_hash t)).
      - apply Permutation_cons_append.
      - constructor; [|exact Ht]. intros Hin. apply in_map_iff in Hin as [y [Hy Hyin]].
        assert (existsb (same_hash fp) t = true) as Hc.
        { apply existsb_exists. exists y. split; [exact Hyin|]. unfold same_hash. now apply String.eqb_eq. }
        congruence. }
    apply nodupb_NoDup in Hnd. rewrite Hnd.
    exists r. rewrite filter_app, (filter_none _ _ E). cbn.
    unfold same_hash. rewrite String.eqb_refl.
    repeat split; reflexivity.
Qed.

(** C7: in every state the [search_cache] table reaches by any
    interleaving of puts, gets, invalidations, cleanups and arbitrary SQL
    statements, from the empty table, no two rows share a [query_hash];
    every statement takes effect whole or not at all; and a put, also one
    racing with others for the same fingerprint, leaves exactly one row
    for its fingerprint, holding the whole entry it wrote. *)
Theorem search_cache_fingerprint_unique :
  (forall ops, NoDup (map query_hash (run_ops [] ops)))
  /\ (forall t s, exec t s = t \/ exec t s = stmt_effect t s)
  /\ (forall ops fp nid ty params res api ttl now,
        exists row,
          filter (same_hash fp) (run_op (run_ops [] ops) (OpPut fp nid ty params res api ttl now)) = [row]
          /\ query_hash row = fp
          /\ results row = res
          /\ result_count row = Z.of_nat (length res)
          /\ source_api row = api
          /\ query_params row = params
          /\ search_type row = ty
          /\ expires_at row = expires_at (put_row fp nid ty params res api ttl now)).
Proof.
  split; [|split].
  - intros ops. apply run_ops_nodup. constructor.
  - intros t s. destruct s; cbn -[stmt_effect]; auto;
      destruct (nodupb _); auto.
  - intros. apply put_commits. apply run_ops_nodup. constructor.
Qed.

End SearchCacheFacts.

(** ** Instances at concrete inputs *)

Module Instances.
Import Samples.

(** Witness of C8: a cached token with an expiry past the buffer is returned as is. *)
Lemma getAccessToken_cache_policy_witness :
  getAccessToken world_none st_cached = (Ok "cached", st_cached).
Proof.
  apply (proj1 (getAccessToken_cache_policy world_none st_cached eq_refl)
                (mkCachedToken "cached" 10000000) eq_refl).
  reflexivity.
Defined.

(** Witness of C4. *)
Lemma retail_unconfigured_result_witness :
  exists res, runRetailSearchAgent parse_ok unconfigured_world request1 st0 = (Ok res, st0)
    /\ confidence res = 0 /\ findings res = [] /\ summary res <> "".
Proof.
  apply retail_unconfigured_result. reflexivity.
Defined.

(** Witness of C3. *)
Lemma retail_zero_products_result_witness :
  exists res, run_of parse_ok world_none = (Ok res, snd (fetch_of world_none))
    /\ is_novel res = true /\ (confidence res < 1)%Q /\ findings res = []
    /\ oracle_calls (trace (snd (fetch_of world_none))) = oracle_calls (trace st0).
Proof.
  apply (retail_zero_products_result parse_ok world_none request1 st0
           (ok_or dummy_search (fetch_of world_none)) (snd (fetch_of world_none)));
    vm_compute; reflexivity.
Defined.

(** Witness of C1. *)
Lemma retail_oracle_failure_fallback_witness :
  exists res s2, run_of parse_ok world_one_failing = (Ok res, s2)
    /\ is_novel res = false
    /\ confidence res = 3 # 10
    /\ findings res = map ebayProductToFinding [prod1]
    /\ Forall (fun f => similarity_score f = 0) (findings res)
    /\ summary res = "Found " ++ nat_to_string 1
                     ++ " potentially similar products on eBay, but analysis failed. Manual review recommended.".
Proof.
  apply (retail_oracle_failure_fallback parse_ok world_one_failing request1 st0
           (ok_or dummy_search (fetch_of world_one_failing)) (snd (fetch_of world_one_failing)));
    vm_compute; solve [reflexivity | discriminate | exact I].
Defined.

(** Witness of the amended C2. *)
Lemma retail_findings_score_origin_witness :
  let r := ok_or dummy_search (fetch_of world_two_scored) in
  let res := ok_or dummy_result (run_of parse_ok world_two_scored) in
  let m := oracle_analyses parse_ok world_two_scored request1 (products r) in
  scores_resolved m res
  /\ Permutation (findings res) (map (apply_analysis m) (map ebayProductToFinding (products r)))
  /\ (forall p, In p (products r) -> map_get m (itemId p) = None ->
                In (ebayProductToFinding p) (findings res))
  /\ (oracle_failed parse_ok world_two_scored request1 (products r) ->
        findings res = map ebayProductToFinding (products r)
        /\ Forall (fun f => similarity_score f = 0) (findings res)).
Proof.
  intros r res m.
  exact (retail_findings_score_origin parse_ok world_two_scored request1 st0
           (ok_or dummy_search (fetch_of world_two_scored)) (snd (fetch_of world_two_scored))
           (ok_or dummy_result (run_of parse_ok world_two_scored)) (snd (run_of parse_ok world_two_scored))
           ltac:(vm_compute; reflexivity) ltac:(vm_compute; reflexivity)).
Defined.

(** Witness of the amended C5. *)
Lemma retail_result_in_unit_range_witness :
  let res := ok_or dummy_result (run_of parse_ok world_two_scored) in
  (exists r s1 text rest a,
      scoring_branch parse_ok world_two_scored request1 st0 r s1 text rest a
      /\ confidence res = a_confidence a
      /\ truth_scores res = a_truth_scores a
      /\ Forall (fun f => similarity_score f = 0
                          \/ exists l pa, product_analyses a = Some l /\ In pa l
                                          /\ similarity_score f = pa_similarity_score pa)
           (findings res)
      /\ (analysis_in01 a -> result_in01 res))
  \/ (result_in01 res
      /\ forall r s1, searchSimilarProducts world_two_scored (invention_name request1)
                       (description request1) (key_features request1) st0 = (Ok r, s1) ->
          isEbayConfigured world_two_scored = false \/ success r = false \/ products r = []
          \/ oracle_failed parse_ok world_two_scored request1 (products r)).
Proof.
  intros res.
  exact (retail_result_in_unit_range parse_ok world_two_scored request1 st0
           (ok_or dummy_result (run_of parse_ok world_two_scored)) (snd (run_of parse_ok world_two_scored))
           ltac:(vm_compute; reflexivity)).
Defined.

(** Witness of C9. *)
Lemma retail_scored_findings_sorted_witness :
  exists res s2, run_of parse_ok world_two_scored = (Ok res, s2)
    /\ Sorted score_desc (findings res)
    /\ Permutation (findings res) (scored_findings analysis1 [prod1; prod2])
    /\ forall v, filter (score_is v) (findings res) = filter (score_is v) (scored_findings analysis1 [prod1; prod2]).
Proof.
  apply (retail_scored_findings_sorted parse_ok world_two_scored request1 st0
           (ok_or dummy_search (fetch_of world_two_scored)) (snd (fetch_of world_two_scored))
           "{}" [] analysis1);
    try (vm_compute; reflexivity).
  vm_compute. discriminate.
Defined.

End Instances.

(** ** Counterexamples and failing inputs *)

Module Counterexamples.
Import Samples.

(** Counterexample to C2 as stated: when the oracle call rejects, the
    fallback result returns the eBay finding with its placeholder score 0,
    which no oracle analysis produced; the finding is not excluded. *)
Lemma retail_unscored_finding_returned :
  ~ (forall JSON_parse w request s res s2,
       runRetailSearchAgent JSON_parse w request s = (Ok res, s2) ->
       forall f, In f (findings res) -> oracle_resolved JSON_parse w request f).
Proof.
  intros H.
  assert (Hr : run_of parse_ok world_one_failing
               = (Ok (ok_or dummy_result (run_of parse_ok world_one_failing)),
                  snd (run_of parse_ok world_one_failing)))
    by (vm_compute; reflexivity).
  specialize (H parse_ok world_one_failing request1 st0 _ _ Hr (ebayProductToFinding prod1)).
  destruct H as (prods & text & rest & a & l & pa & Ho & _).
  - vm_compute. left. reflexivity.
  - discriminate Ho.
Qed.

(** Counterexample to C5 as stated: the oracle's confidence of 1.5 is
    adopted verbatim in the returned result. *)
Lemma retail_confidence_out_of_range :
  ~ (forall JSON_parse w request s res s2,
       runRetailSearchAgent JSON_parse w request s = (Ok res, s2) -> result_in01 res).
Proof.
  intros H.
  assert (Hr : run_of parse_high world_two_scored
               = (Ok (ok_or dummy_result (run_of parse_high world_two_scored)),
                  snd (run_of parse_high world_two_scored)))
    by (vm_compute; reflexivity).
  destruct (H parse_high world_two_scored request1 st0 _ _ Hr) as [[_ Hc] _].
  vm_compute in Hc. apply Hc. reflexivity.
Qed.

(** Failing input of C10: credentials are set and the cached token is
    valid; the search answers 401.  When the body is readable the cache is
    cleared, but when reading the body rejects, the rejection is caught
    before the 401 check and the failure result is returned with the
    token still cached. *)
Theorem searchEbay_401_unreadable_body_keeps_token :
  searchEbay (world_401 (Throw (ErrorObj "body stream already read"))) "solar case" no_options st_cached
  = (Ok (mkEbaySearchResult false [] 0 "solar case" (Some "body stream already read")),
     mkSt (Some (mkCachedToken "cached" 10000000))
          [CallSearch [("q", "solar case"); ("limit", "20"); ("offset", "0")]])
  /\ cachedToken (snd (searchEbay (world_401 (Ok "Unauthorized")) "solar case" no_options st_cached)) = None.
Proof. split; vm_compute; reflexivity. Qed.

End Counterexamples.

(** ** Further properties of the eBay client *)

Module EbayFacts.

(** A token [getAccessToken] returns is the one left in the cache, with
    some expiry [e]; until [e] is less than 5 minutes away, every later
    call returns that same token without any external call and without
    touching the state. *)
Theorem getAccessToken_token_reused (w : World) (s : St) (t : string) (s1 : St)
    (H : getAccessToken w s = (Ok t, s1)) :
  exists e, cachedToken s1 = Some (mkCachedToken t e)
    /\ forall w', isEbayConfigured w' = true -> (w_now w' + refresh_buffer < e)%Z ->
                  getAccessToken w' s1 = (Ok t, s1).
Proof.
  assert (Hc1 : exists e, cachedToken s1 = Some (mkCachedToken t e)).
  { destruct (isEbayConfigured w) eqn:Hc.
    2:{ rewrite (getAccessToken_unconfigured w s Hc) in H. discriminate. }
    rewrite (getAccessToken_configured w Hc) in H. unfold_M. cbn in H.
    destruct (cachedToken s) as [[tok exp]|] eqn:Hs; cbn in H;
      split_matches_in H; try discriminate; injection H as <- <-; cbn; eauto. }
  destruct Hc1 as [e He]. exists e. split; [exact He|].
  intros w' Hc' Hlt. rewrite (getAccessToken_configured w' Hc'). unfold_M. cbn.
  rewrite He. cbn. replace refresh_buffer with 300000%Z in Hlt by reflexivity.
  apply Z.ltb_lt in Hlt. rewrite Hlt. reflexivity.
Qed.

(** With a missing (or empty) [EBAY_CLIENT_ID] or [EBAY_CLIENT_SECRET],
    [searchEbay] returns the failure result carrying the credentials
    message, makes no external call and leaves the token cache alone. *)
Theorem searchEbay_unconfigured (w : World) (query : string) (options : SearchOptions) (s : St)
    (Hunconf : isEbayConfigured w = false) :
  searchEbay w query options s
  = (Ok (mkEbaySearchResult false [] 0 query (Some credentials_missing_msg)), s).
Proof.
  unfold searchEbay, try_catch, bind at 1.
  rewrite (getAccessToken_unconfigured w s Hunconf). reflexivity.
Qed.

(** [searchEbay] never throws; its result always echoes the query, has an
    error message exactly when it is not a success, and a failure carries
    no products and a total of 0. *)
Theorem searchEbay_result_shape (w : World) (query : string) (options : SearchOptions) (s : St) :
  exists r s', searchEbay w query options s = (Ok r, s')
    /\ searchQuery r = query
    /\ (success r = true <-> error r = None)
    /\ (success r = false -> products r = [] /\ total r = 0%Z).
Proof.
  destruct (searchEbay_total w query options s) as [r [s' H]].
  exists r, s'. split; [exact H|]. exact (searchEbay_ok_shape w query options s r s' H).
Qed.

(** How [searchEbay] handles the Browse API response, once a token is
    obtained: an OK response with a readable JSON body is a success with
    [itemSummaries || []] and [total || 0]; a non-OK response with a
    readable body is a failure whose message depends on the status, and
    the token cache is cleared for status 401 only. *)
Theorem searchEbay_response_handling (w : World) (query : string) (options : SearchOptions)
    (s : St) (tok : string) (s1 : St) (status : Z) (text : Exc string) (json : Exc EbaySearchResponse)
    (Htok : getAccessToken w s = (Ok tok, s1))
    (Hresp : w_search w tok (search_params query options) = FetchResp status text json) :
  (forall data, resp_ok status = true -> json = Ok data ->
     searchEbay w query options s
     = (Ok (mkEbaySearchResult true
              (match itemSummaries data with Some l => l | None => [] end)
              (default_Z (resp_total data) 0) query None),
        mkSt (cachedToken s1) (app (trace s1) [CallSearch (search_params query options)])))
  /\
  (forall errorText, resp_ok status = false -> text = Ok errorText ->
     searchEbay w query options s
     = (Ok (mkEbaySearchResult false [] 0 query
              (Some (if (status =? 401)%Z then "eBay access token expired. Please retry."
                     else if (status =? 429)%Z then "eBay API rate limit exceeded. Please try again later."
                     else "eBay search failed (" ++ Z_to_string status ++ "): " ++ errorText))),
        mkSt (if (status =? 401)%Z then None else cachedToken s1)
             (app (trace s1) [CallSearch (search_params query options)]))).
Proof.
  split; [intros data Hok Hj | intros errorText Hok Ht];
    unfold searchEbay, try_catch, bind at 1; rewrite Htok;
    remember (search_params query options) as params eqn:Hp; clear Hp;
    cbv beta zeta; unfold bind at 2; unfold record_call;
    cbv beta iota; rewrite Hresp.
  - subst json. rewrite Hok. reflexivity.
  - subst text. rewrite Hok. unfold_M. cbv beta iota.
    destruct (status =? 401)%Z; [reflexivity|].
    destruct (status =? 429)%Z; reflexivity.
Qed.

Lemma getAccessToken_calls w s r s1 :
  getAccessToken w s = (r, s1) ->
  (trace s1 = trace s \/ trace s1 = app (trace s) [CallOAuth])
  /\ (isEbayConfigured w = false -> s1 = s)
  /\ (forall tok, r = Ok tok -> trace s1 = app (trace s) [CallOAuth] \/ s1 = s).
Proof.
  intros H. destruct (isEbayConfigured w) eqn:Hc.
  - rewrite (getAccessToken_configured w Hc) in H. unfold_M. cbn in H.
    split_matches_in H; injection H as <- <-; cbn;
      repeat split; auto; try discriminate.
  - rewrite (getAccessToken_unconfigured w s Hc) in H. injection H as <- <-.
    repeat split; auto; intros; discriminate.
Qed.

Lemma searchEbay_calls_aux w query options s r s' :
  searchEbay w query options s = (r, s') ->
  exists ext, trace s' = app (trace s) ext
    /\ (ext = [] \/ ext = [CallOAuth] \/ ext = [CallSearch (search_params query options)]
        \/ ext = [CallOAuth; CallSearch (search_params query options)])
    /\ (isEbayConfigured w = false -> ext = [])
    /\ (forall res, r = Ok res -> success res = true ->
          In (CallSearch (search_params query options)) ext).
Proof.
  intros H.
  unfold searchEbay, try_catch, bind at 1 in H.
  destruct (getAccessToken w s) as [[tok|e] s1] eqn:Hg;
    destruct (getAccessToken_calls w s _ s1 Hg) as [Htr [Hun Hok]].
  - remember (search_params query options) as params eqn:Hp.
    assert (Hext : trace s' = app (trace s1) [CallSearch params]).
    { clear Hp. unfold_M. cbn in H. split_matches_in H; injection H as <- <-; reflexivity. }
    assert (Hcf : isEbayConfigured w = true).
    { destruct (isEbayConfigured w) eqn:Hc; auto.
      rewrite (getAccessToken_unconfigured w s Hc) in Hg. discriminate. }
    destruct (Hok tok eq_refl) as [Ht|Hs].
    + exists [CallOAuth; CallSearch params].
      rewrite Hext, Ht, <- app_assoc. split; [reflexivity|].
      split; [auto|]. split; [congruence|]. intros; cbn; auto.
    + subst s1. exists [CallSearch params].
      split; [exact Hext|]. split; [auto|]. split; [congruence|]. intros; cbn; auto.
  - cbn in H. injection H as <- <-. destruct Htr as [Ht|Ht].
    + exists []. rewrite app_nil_r. split; [exact Ht|]. split; [auto|].
      split; [auto|]. intros res Hr Hs. injection Hr as <-. discriminate.
    + exists [CallOAuth]. split; [exact Ht|]. split; [auto|]. split.
      * intros Hc. specialize (Hun Hc). subst s1. rewrite <- (app_nil_r (trace s)) in Ht at 1.
        apply app_inv_head in Ht. discriminate.
      * intros res Hr Hs. injection Hr as <-. discriminate.
Qed.

(** The external calls of one [searchEbay]: at most one OAuth request,
    then at most one Browse API request, with the parameters built from
    the query and the options; none at all without credentials. *)
Theorem searchEbay_calls (w : World) (query : string) (options : SearchOptions) (s : St) :
  exists ext, trace (snd (searchEbay w query options s)) = app (trace s) ext
    /\ (ext = [] \/ ext = [CallOAuth] \/ ext = [CallSearch (search_params query options)]
        \/ ext = [CallOAuth; CallSearch (search_params query options)])
    /\ (isEbayConfigured w = false -> ext = []).
Proof.
  destruct (searchEbay w query options s) as [r s'] eqn:H.
  destruct (searchEbay_calls_aux w query options s r s' H) as [ext [H1 [H2 [H3 _]]]].
  eauto.
Qed.

End EbayFacts.

(** ** The query [searchSimilarProducts] sends *)

Module QueryFacts.

Lemma list_ascii_of_string_app s1 s2 :
  list_ascii_of_string (s1 ++ s2) = app (list_ascii_of_string s1) (list_ascii_of_string s2).
Proof. induction s1 as [|c r IH]; cbn; [reflexivity | now rewrite IH]. Qed.

Lemma split_ws_aux_pieces (Q : ascii -> Prop) s cur b :
  (forall c, In c (list_ascii_of_string s) -> is_space c = false -> Q c) ->
  Forall (fun c => is_space c = false /\ Q c) (list_ascii_of_string cur) ->
  Forall (fun wd => Forall (fun c => is_space c = false /\ Q c) (list_ascii_of_string wd))
    (split_ws_aux s cur b).
Proof.
  revert cur b. induction s as [|c r IH]; intros cur b Hs Hcur; cbn.
  - now constructor.
  - assert (Hr : forall c', In c' (list_ascii_of_string r) -> is_space c' = false -> Q c')
      by (intros c' Hc'; apply Hs; now right).
    destruct (is_space c) eqn:Hc.
    + destruct b.
      * now apply IH.
      * constructor; [exact Hcur|]. apply IH; [exact Hr | constructor].
    + apply IH; [exact Hr|].
      rewrite list_ascii_of_string_app. apply Forall_app. split; [exact Hcur|].
      constructor; [|constructor]. split; [exact Hc|]. apply Hs; [now left | exact Hc].
Qed.

Lemma ascii_lower_not_upper c : is_upper (ascii_lower c) = false.
Proof.
  unfold ascii_lower. destruct (is_upper c) eqn:H; [|exact H].
  unfold is_upper in *. set (n := nat_of_ascii c) in *.
  assert (Hn : (65 <= n <= 90 \/ 192 <= n <= 222)%nat).
  { apply orb_true_iff in H as [H|H]; rewrite !andb_true_iff, !Nat.leb_le in H; lia. }
  rewrite nat_ascii_embedding by lia.
  destruct (Nat.leb_spec 65 (n + 32)), (Nat.leb_spec (n + 32) 90),
    (Nat.leb_spec 192 (n + 32)), (Nat.leb_spec (n + 32) 222); cbn; try reflexivity; lia.
Qed.

Lemma toLowerCase_chars s c : In c (list_ascii_of_string (toLowerCase s)) -> is_upper c = false.
Proof.
  induction s as [|d r IH]; cbn; [contradiction|].
  intros [<-|H]; [apply ascii_lower_not_upper | now apply IH].
Qed.

Lemma words_of_lower s :
  Forall (fun wd => Forall (fun c => is_space c = false /\ is_upper c = false) (list_ascii_of_string wd))
    (split_ws (toLowerCase s)).
Proof.
  apply split_ws_aux_pieces; [|constructor].
  intros c Hc _. exact (toLowerCase_chars s c Hc).
Qed.

Lemma Forall_firstn {A} (P : A -> Prop) n l : Forall P l -> Forall P (firstn n l).
Proof.
  revert l. induction n as [|n IH]; intros [|x l] H; cbn; auto.
  inversion H; subst. constructor; auto.
Qed.

Lemma NoDup_firstn' {A} n (l : list A) : NoDup l -> NoDup (firstn n l).
Proof.
  intros H. rewrite <- (firstn_skipn n l) in H. now apply NoDup_app_remove_r in H.
Qed.

Lemma set_has_false l x : set_has l x = false -> ~ In x l.
Proof.
  unfold set_has. intros H Hin.
  assert (Ht : existsb (String.eqb x) l = true)
    by (apply existsb_exists; exists x; split; [exact Hin | apply String.eqb_refl]).
  congruence.
Qed.

Lemma dedup_aux_props seen l :
  NoDup (dedup_aux seen l)
  /\ (forall x, In x (dedup_aux seen l) -> In x l /\ ~ In x seen).
Proof.
  revert seen. induction l as [|x r IH]; intros seen; cbn.
  - split; [constructor | contradiction].
  - destruct (set_has seen x) eqn:Hx.
    + destruct (IH seen) as [Hn Hi]. split; [exact Hn|].
      intros y Hy. destruct (Hi y Hy). split; [now right | assumption].
    + destruct (IH (app seen [x])) as [Hn Hi]. split.
      * constructor; [|exact Hn].
        intros Hin. destruct (Hi x Hin) as [_ Hs]. apply Hs, in_or_app. right. now left.
      * intros y [<-|Hy].
        -- split; [now left | now apply set_has_false].
        -- destruct (Hi y Hy) as [Hy1 Hy2]. split; [now right|].
           intros Hs. apply Hy2, in_or_app. now left.
Qed.

(** The query sent to eBay is made of at most five distinct words, each
    of more than two characters, none of them a stop word, and each free
    of white space and of upper-case letters. *)
Theorem similar_products_query_words (inventionName : string) (keyFeatures : option (list string)) :
  exists ws, similar_products_query inventionName keyFeatures = String.concat " " ws
    /\ (length ws <= 5)%nat /\ NoDup ws
    /\ Forall (fun wd => (2 < String.length wd)%nat /\ ~ In wd stopWords
                 /\ Forall (fun c => is_space c = false /\ is_upper c = false)
                      (list_ascii_of_string wd)) ws.
Proof.
  unfold similar_products_query.
  set (good := fun wd => keep_word wd = true
                 /\ Forall (fun c => is_space c = false /\ is_upper c = false)
                      (list_ascii_of_string wd)).
  assert (Hfilt : forall s, Forall good (filter keep_word (split_ws (toLowerCase s)))).
  { intros s. pose proof (words_of_lower s) as H.
    apply Forall_forall. intros wd Hwd. apply filter_In in Hwd as [Hin Hk].
    split; [exact Hk|]. exact (proj1 (Forall_forall _ _) H wd Hin). }
  eexists. split; [reflexivity|].
  split; [rewrite length_firstn; lia|].
  destruct (dedup_aux_props [] (app (firstn 3 (filter keep_word (split_ws (toLowerCase inventionName))))
      (match keyFeatures with
       | Some fs => if Nat.ltb 0 (length fs) then
                      firstn 3 (flat_map (fun f => filter keep_word (split_ws (toLowerCase f))) (firstn 2 fs))
                    else []
       | None => [] end))) as [Hnd Hin].
  split; [now apply NoDup_firstn'|].
  apply Forall_firstn. apply Forall_forall. intros wd Hwd.
  destruct (Hin wd Hwd) as [Hwd' _].
  assert (Hg : good wd).
  { apply in_app_or in Hwd' as [H|H].
    - apply (proj1 (Forall_forall _ _) (Forall_firstn _ 3 _ (Hfilt inventionName))). exact H.
    - destruct keyFeatures as [fs|]; [|destruct H].
      destruct (Nat.ltb 0 (length fs)); [|destruct H].
      refine (proj1 (Forall_forall _ _) (Forall_firstn good 3 _ _) wd H).
      apply Forall_forall. intros y Hy. apply in_flat_map in Hy as [f [_ Hy]].
      exact (proj1 (Forall_forall _ _) (Hfilt f) y Hy). }
  destruct Hg as [Hk Hc]. unfold keep_word in Hk.
  apply andb_true_iff in Hk as [Hl Hs]. apply Nat.ltb_lt in Hl.
  apply negb_true_iff, set_has_false in Hs. auto.
Qed.

(** Only the first two key features are used, and an empty list of key
    features gives the same query as none. *)
Theorem similar_products_query_features (inventionName : string) (fs : list string) :
  similar_products_query inventionName (Some fs)
    = similar_products_query inventionName (Some (firstn 2 fs))
  /\ similar_products_query inventionName (Some []) = similar_products_query inventionName None.
Proof.
  split; [|reflexivity].
  unfold similar_products_query. destruct fs as [|f1 r]; [reflexivity|].
  rewrite firstn_firstn. replace (Nat.min 2 2) with 2%nat by reflexivity.
  destruct r as [|f2 r]; reflexivity.
Qed.

End QueryFacts.

(** ** Further properties of the retail search agent *)

Module AgentFacts.
Import EbayFacts.

Lemma searchSimilarProducts_ok_shape w name desc features s r s1 :
  searchSimilarProducts w name desc features s = (Ok r, s1) ->
  searchQuery r = similar_products_query name features
  /\ (success r = true <-> error r = None)
  /\ (success r = false -> products r = [] /\ total r = 0%Z).
Proof. apply searchEbay_ok_shape. Qed.

Lemma apply_analysis_metadata m f : metadata (apply_analysis m f) = metadata f.
Proof. unfold apply_analysis. now destruct (map_get m (item_id (metadata f))). Qed.

(** The branches of [retail_after_fetch], as the equations a proof uses. *)
Lemma retail_after_fetch_cases JSON_parse w request r s1 :
  (success r = false ->
     retail_after_fetch JSON_parse w request r s1
     = (Ok (mkNoveltyResult "retail_search" false 0 []
              ("eBay API error: " ++ match error r with Some e => e | None => "undefined" end)
              zero_truth (searchQuery r) (w_now w)), s1))
  /\ (success r = true -> products r = [] ->
       exists res, retail_after_fetch JSON_parse w request r s1 = (Ok res, s1)
         /\ findings res = [] /\ search_query_used res = searchQuery r
         /\ agent_type res = "retail_search" /\ timestamp res = w_now w)
  /\ (success r = true -> products r <> [] ->
       exists res, retail_after_fetch JSON_parse w request r s1
                   = (Ok res, mkSt (cachedToken s1) (app (trace s1) [CallOracle]))
         /\ search_query_used res = searchQuery r
         /\ agent_type res = "retail_search" /\ timestamp res = w_now w
         /\ (findings res = map ebayProductToFinding (products r)
             \/ exists a, findings res = sort_findings (map (apply_analysis a)
                                         (map ebayProductToFinding (products r))))).
Proof.
  unfold retail_after_fetch. split; [|split].
  - intros Hf. rewrite Hf. reflexivity.
  - intros Ht Hn. rewrite Ht, Hn. cbn. eexists. split; [reflexivity|]. auto.
  - intros Ht Hn. rewrite Ht. cbn [negb].
    assert (Hlen : Nat.eqb (length (products r)) 0 = false)
      by (destruct (products r); [contradiction | reflexivity]).
    rewrite Hlen. unfold_M. cbn.
    destruct (w_oracle w request (products r)) as [[|[text|] rest]|e];
      [| destruct (JSON_parse (extract_json text)) as [a|e] | |]; cbn;
      eexists; (split; [reflexivity|]); cbn; repeat split; eauto.
Qed.

(** When the eBay fetch fails, the agent returns a zero-confidence,
    not-novel result with no findings whose summary carries the error
    message of [searchEbay], right after the fetch: the scoring oracle is
    not called. *)
Theorem retail_fetch_error_result (JSON_parse : string -> Exc AnalysisResult)
    (w : World) (request : NoveltyCheckRequest) (s : St) (r : EbaySearchResult) (s1 : St)
    (Hconf : isEbayConfigured w = true)
    (Hfetch : searchSimilarProducts w (invention_name request) (description request)
                (key_features request) s = (Ok r, s1))
    (Hfail : success r = false) :
  exists e, error r = Some e
    /\ runRetailSearchAgent JSON_parse w request s
       = (Ok (mkNoveltyResult "retail_search" false 0 [] ("eBay API error: " ++ e)
                zero_truth (searchQuery r) (w_now w)), s1).
Proof.
  destruct (searchSimilarProducts_ok_shape _ _ _ _ _ _ _ Hfetch) as [_ [Herr _]].
  destruct (error r) as [e|] eqn:He.
  2:{ assert (Ht : success r = true) by (apply Herr; reflexivity). congruence. }
  exists e. split; [reflexivity|].
  rewrite (run_after_fetch JSON_parse w request s r s1 Hconf Hfetch).
  rewrite (proj1 (retail_after_fetch_cases JSON_parse w request r s1) Hfail), He.
  reflexivity.
Qed.

(** [runRetailSearchAgent] never throws; its result always has agent type
    ["retail_search"], the clock's time as timestamp, and as
    [search_query_used] the query built by [searchSimilarProducts], or the
    invention name when eBay is not configured. *)
Theorem retail_run_result_fields (JSON_parse : string -> Exc AnalysisResult)
    (w : World) (request : NoveltyCheckRequest) (s : St) :
  exists res s', runRetailSearchAgent JSON_parse w request s = (Ok res, s')
    /\ agent_type res = "retail_search"
    /\ timestamp res = w_now w
    /\ search_query_used res
       = (if isEbayConfigured w
          then similar_products_query (invention_name request) (key_features request)
          else invention_name request).
Proof.
  destruct (isEbayConfigured w) eqn:Hc.
  2:{ unfold runRetailSearchAgent. rewrite Hc. do 2 eexists. split; [reflexivity|]. auto. }
  destruct (searchSimilarProducts_total w (invention_name request) (description request)
              (key_features request) s) as [r [s1 Hfetch]].
  destruct (searchSimilarProducts_ok_shape _ _ _ _ _ _ _ Hfetch) as [Hq _].
  rewrite (run_after_fetch JSON_parse w request s r s1 Hc Hfetch), <- Hq.
  destruct (retail_after_fetch_cases JSON_parse w request r s1) as [Hf [Hz Hn]].
  destruct (success r) eqn:Hs.
  - destruct (products r) as [|p ps] eqn:Hp.
    + destruct (Hz eq_refl eq_refl) as [res [E [_ [Hq' [Ha Ht]]]]].
      rewrite E. do 2 eexists. split; [reflexivity|]. auto.
    + assert (Hne : p :: ps <> []) by discriminate.
      destruct (Hn eq_refl Hne) as [res [E [Hq' [Ha [Ht _]]]]].
      rewrite E. do 2 eexists. split; [reflexivity|]. auto.
  - rewrite (Hf eq_refl). do 2 eexists. split; [reflexivity|]. auto.
Qed.

(** Whatever the scoring oracle answers, the findings of a run are the
    products of the eBay fetch, each exactly once (compared by item id):
    none is dropped and none is invented. *)
Theorem retail_findings_are_products (JSON_parse : string -> Exc AnalysisResult)
    (w : World) (request : NoveltyCheckRequest) (s : St) (r : EbaySearchResult) (s1 : St)
    (res : NoveltyResult) (s2 : St)
    (Hconf : isEbayConfigured w = true)
    (Hfetch : searchSimilarProducts w (invention_name request) (description request)
                (key_features request) s = (Ok r, s1))
    (Hrun : runRetailSearchAgent JSON_parse w request s = (Ok res, s2)) :
  Permutation (map (fun f => item_id (metadata f)) (findings res)) (map itemId (products r)).
Proof.
  rewrite (run_after_fetch JSON_parse w request s r s1 Hconf Hfetch) in Hrun.
  destruct (searchSimilarProducts_ok_shape _ _ _ _ _ _ _ Hfetch) as [_ [_ Hfp]].
  destruct (retail_after_fetch_cases JSON_parse w request r s1) as [Hf [Hz Hn]].
  assert (Hmap : map (fun f => item_id (metadata f)) (map ebayProductToFinding (products r))
                 = map itemId (products r))
    by (rewrite map_map; reflexivity).
  destruct (success r) eqn:Hs.
  - assert (Hcase : products r = [] \/ products r <> [])
      by (destruct (products r); [left | right]; congruence).
    destruct Hcase as [Hp|Hne].
    + destruct (Hz eq_refl Hp) as [res' [E [Hnil _]]].
      rewrite E in Hrun. injection Hrun as <- _. rewrite Hnil, Hp. constructor.
    + destruct (Hn eq_refl Hne) as [res' [E [_ [_ [_ [Hfd|[a Hfd]]]]]]];
        rewrite E in Hrun; injection Hrun as <- _; rewrite Hfd.
      * rewrite Hmap. reflexivity.
      * eapply Permutation_trans; [apply Permutation_map, sort_findings_perm|].
        rewrite !map_map. apply Permutation_refl'. apply map_ext. intros q.
        rewrite apply_analysis_metadata. reflexivity.
  - destruct (Hfp eq_refl) as [Hnil _]. rewrite (Hf eq_refl) in Hrun.
    injection Hrun as <- _. rewrite Hnil. constructor.
Qed.

End AgentFacts.

Module AgentCallFacts.
Import EbayFacts AgentFacts.

Lemma find_app_none {A} (p : A -> bool) (l1 l2 : list A) :
  (forall x, In x l1 -> p x = false) -> find p (l1 ++ l2) = find p l2.
Proof.
  induction l1 as [|x l1 IH]; intros H; cbn; [reflexivity|].
  rewrite (H x (or_introl eq_refl)). apply IH. intros y Hy. apply H. now right.
Qed.

Lemma map_get_absent m k :
  Forall (fun b => pa_item_id b <> k) m -> map_get m k = None.
Proof.
  intros H. unfold map_get. rewrite <- (app_nil_r (rev m)), find_app_none; [reflexivity|].
  intros x Hx. apply in_rev in Hx. rewrite Forall_forall in H.
  apply String.eqb_neq. now apply H.
Qed.

Lemma map_get_last m1 a m2 k :
  pa_item_id a = k -> Forall (fun b => pa_item_id b <> k) m2 ->
  map_get (m1 ++ a :: m2) k = Some a.
Proof.
  intros Ha H. unfold map_get. rewrite rev_app_distr. cbn [rev].
  rewrite <- app_assoc, find_app_none.
  - cbn. rewrite Ha, String.eqb_refl. reflexivity.
  - intros x Hx. apply in_rev in Hx. rewrite Forall_forall in H.
    apply String.eqb_neq. now apply H.
Qed.

(** How the scoring oracle's analyses are merged into a finding, as
    [new Map(...)] and [analysis?.analysis || finding.description] do: of
    several analyses with the finding's item id the last one decides the
    similarity score, and its text replaces the description unless empty;
    a finding no analysis names is left unchanged. *)
Theorem apply_analysis_last_entry (m1 m2 : list ProductAnalysis) (a : ProductAnalysis)
    (f : NoveltyFinding)
    (Hkey : pa_item_id a = item_id (metadata f))
    (Hlast : Forall (fun b => pa_item_id b <> item_id (metadata f)) m2) :
  apply_analysis (m1 ++ a :: m2) f
  = mkNoveltyFinding (f_title f) (str_or (pa_analysis a) (f_description f)) (url f)
      (pa_similarity_score a) (source f) (metadata f)
  /\ apply_analysis m2 f = f.
Proof.
  unfold apply_analysis. rewrite (map_get_last m1 a m2 _ Hkey Hlast), (map_get_absent m2 _ Hlast).
  split; reflexivity.
Qed.

(** The external calls of one run of the retail agent: nothing without
    credentials; otherwise those of [searchEbay] (an OAuth request, then
    the Browse API request for at most 15 items with the built query),
    followed by exactly one call to the scoring oracle when, and only
    when, the fetch succeeded with at least one product. *)
Theorem retail_run_calls (JSON_parse : string -> Exc AnalysisResult)
    (w : World) (request : NoveltyCheckRequest) (s : St) :
  let p := search_params (similar_products_query (invention_name request) (key_features request))
             (mkSearchOptions (Some 15%Z) None None None) in
  exists ext,
    trace (snd (runRetailSearchAgent JSON_parse w request s)) = app (trace s) ext
    /\ (ext = [] \/ ext = [CallOAuth] \/ ext = [CallSearch p] \/ ext = [CallOAuth; CallSearch p]
        \/ ext = [CallSearch p; CallOracle] \/ ext = [CallOAuth; CallSearch p; CallOracle])
    /\ (isEbayConfigured w = false -> ext = [])
    /\ (In CallOracle ext <->
        exists r s1, searchSimilarProducts w (invention_name request) (description request)
                       (key_features request) s = (Ok r, s1)
                     /\ success r = true /\ products r <> []).
Proof.
  intros p.
  destruct (isEbayConfigured w) eqn:Hc.
  2:{ exists []. unfold runRetailSearchAgent. rewrite Hc. cbn. rewrite app_nil_r.
      split; [reflexivity|]. split; [auto|]. split; [auto|].
      split; [intros []|]. intros [r [s1 [Hf [Hs _]]]].
      unfold searchSimilarProducts in Hf. rewrite searchEbay_unconfigured_eq in Hf by exact Hc.
      injection Hf as <- _. cbn in Hs. discriminate Hs. }
  destruct (searchSimilarProducts_total w (invention_name request) (description request)
              (key_features request) s) as [r [s1 Hfetch]].
  pose proof Hfetch as Hfetch'. unfold searchSimilarProducts in Hfetch'.
  destruct (searchEbay_calls_aux _ _ _ _ _ _ Hfetch') as [ext1 [Htr [Hshape [_ Hsucc]]]].
  fold p in Htr, Hshape, Hsucc.
  rewrite (run_after_fetch JSON_parse w request s r s1 Hc Hfetch).
  destruct (retail_after_fetch_cases JSON_parse w request r s1) as [Hf [Hz Hn]].
  assert (Hnoo : ~ In CallOracle ext1)
    by (destruct Hshape as [->|[->|[->| ->]]]; cbn; intuition congruence).
  assert (Hiff : forall P : Prop, ~ P ->
            (In CallOracle ext1 <-> P))
    by (intros P HP; split; intros; contradiction).
  destruct (success r) eqn:Hs.
  - assert (Hcase : products r = [] \/ products r <> [])
      by (destruct (products r); [left | right]; congruence).
    destruct Hcase as [Hp|Hne].
    + destruct (Hz eq_refl Hp) as [res [E _]]. rewrite E. cbn.
      exists ext1. split; [exact Htr|]. split; [destruct Hshape as [|[|[|]]]; auto|].
      split; [discriminate|]. apply Hiff.
      intros [r' [s1' [Hf' [_ Hne]]]]. rewrite Hfetch in Hf'. injection Hf' as <- _. auto.
    + destruct (Hn eq_refl Hne) as [res [E _]]. rewrite E. cbn.
      exists (app ext1 [CallOracle]). rewrite Htr, <- app_assoc. split; [reflexivity|].
      specialize (Hsucc r eq_refl Hs).
      split; [destruct Hshape as [->|[->|[->| ->]]]; cbn in Hsucc; cbn;
              intuition congruence|].
      split; [discriminate|]. split; [intros _; eauto|].
      intros _. apply in_or_app. right. now left.
  - rewrite (Hf eq_refl). cbn.
    exists ext1. split; [exact Htr|]. split; [destruct Hshape as [|[|[|]]]; auto|].
    split; [discriminate|]. apply Hiff.
    intros [r' [s1' [Hf' [Hs' _]]]]. rewrite Hfetch in Hf'. injection Hf' as <- _. congruence.
Qed.

End AgentCallFacts.

(** ** Extracting the JSON text: [trim] and the code fences *)

Module ExtractFacts.

Lemma string_of_list_ascii_app l1 l2 :
  string_of_list_ascii (app l1 l2) = string_of_list_ascii l1 ++ string_of_list_ascii l2.
Proof. induction l1 as [|c l IH]; cbn; [reflexivity | now rewrite IH]. Qed.

Lemma string_app_assoc a b c : (a ++ b) ++ c = a ++ (b ++ c).
Proof. induction a as [|x a IH]; cbn; [reflexivity | now rewrite IH]. Qed.

Lemma rev_string_app a b : rev_string (a ++ b) = rev_string b ++ rev_string a.
Proof.
  unfold rev_string. rewrite QueryFacts.list_ascii_of_string_app, rev_app_distr.
  apply string_of_list_ascii_app.
Qed.

Lemma rev_string_involutive s : rev_string (rev_string s) = s.
Proof.
  unfold rev_string. rewrite list_ascii_of_string_of_list_ascii, rev_involutive.
  apply string_of_list_ascii_of_string.
Qed.

Lemma forallb_rev {A} (p : A -> bool) l : forallb p (rev l) = forallb p l.
Proof.
  induction l as [|x l IH]; cbn; [reflexivity|].
  rewrite forallb_app, IH. cbn. now rewrite andb_true_r, andb_comm.
Qed.

Lemma trim_start_spaces ws x :
  forallb is_trim_space (list_ascii_of_string ws) = true -> trim_start (ws ++ x) = trim_start x.
Proof.
  induction ws as [|c ws IH]; intros H; cbn in *; [reflexivity|].
  apply andb_prop in H as [Hc Hws]. rewrite Hc. now apply IH.
Qed.

(** Text between blanks keeps its first and last character under [trim]. *)
Lemma trim_around ws1 ws2 c m m' c' :
  is_trim_space c = false -> is_trim_space c' = false ->
  String c m = m' ++ String c' EmptyString ->
  forallb is_trim_space (list_ascii_of_string ws1) = true ->
  forallb is_trim_space (list_ascii_of_string ws2) = true ->
  trim (ws1 ++ String c m ++ ws2) = String c m.
Proof.
  intros Hc Hc' Hend H1 H2. unfold trim.
  rewrite trim_start_spaces by exact H1.
  change (String c m ++ ws2) with (String c (m ++ ws2)). cbn [trim_start]. rewrite Hc.
  change (String c (m ++ ws2)) with (String c m ++ ws2). rewrite Hend.
  rewrite !rev_string_app, trim_start_spaces.
  - change (rev_string (String c' EmptyString)) with (String c' EmptyString).
    change (String c' EmptyString ++ rev_string m') with (String c' (rev_string m')).
    cbn [trim_start]. rewrite Hc'.
    change (String c' (rev_string m')) with (String c' EmptyString ++ rev_string m').
    rewrite rev_string_app, rev_string_involutive. reflexivity.
  - unfold rev_string. rewrite list_ascii_of_string_of_list_ascii, forallb_rev. exact H2.
Qed.

Lemma substring_app_prefix b r : substring 0 (String.length b) (b ++ r) = b.
Proof. induction b as [|c b IH]; cbn; [now destruct r | now rewrite IH]. Qed.

Lemma substring_shift p n r : substring (String.length p) n (p ++ r) = substring 0 n r.
Proof. induction p as [|c p IH]; cbn; [reflexivity | exact IH]. Qed.

Lemma index_0_self p r : String.index 0 p (p ++ r) = Some 0%nat.
Proof.
  assert (Hp : String.prefix p (p ++ r) = true)
    by (apply String.prefix_correct, substring_app_prefix).
  destruct (p ++ r) as [|c s] eqn:E.
  - destruct p; [reflexivity | discriminate].
  - cbn [String.index]. rewrite Hp. reflexivity.
Qed.

Lemma index_shift p pat r :
  String.index (String.length p) pat (p ++ r)
  = option_map (fun n => (String.length p + n)%nat) (String.index 0 pat r).
Proof.
  induction p as [|c p IH]; cbn [String.length append String.index].
  - now destruct (String.index 0 pat r).
  - rewrite IH. now destruct (String.index 0 pat r).
Qed.

(** A closing fence cannot start inside the text before it: the fence
    begins with a newline, which the rest of the fence does not contain. *)
Lemma fence_close_no_straddle c b :
  String.prefix (nl ++ "```") (String c b) = false ->
  String.prefix (nl ++ "```") (String c (b ++ nl ++ "```")) = false.
Proof.
  intros H. destruct (String.prefix _ (String c (b ++ _))) eqn:E; [|reflexivity].
  exfalso. apply String.prefix_correct in E.
  rewrite <- Bool.not_true_iff_false in H. apply H, String.prefix_correct.
  unfold nl in *. destruct b as [|c1 [|c2 [|c3 [|c4 b5]]]]; cbn in *; congruence.
Qed.

Lemma fence_close_first b :
  String.index 0 (nl ++ "```") b = None ->
  String.index 0 (nl ++ "```") (b ++ nl ++ "```") = Some (String.length b).
Proof.
  induction b as [|c b IH]; intros H.
  - vm_compute. reflexivity.
  - cbn [String.index append String.length] in *.
    destruct (String.prefix (nl ++ "```") (String c b)) eqn:E1; [discriminate|].
    destruct (String.index 0 (nl ++ "```") b) eqn:E2; [discriminate|].
    rewrite (fence_close_no_straddle c b E1), IH by reflexivity. reflexivity.
Qed.

Lemma prefix_app_l p q s : String.prefix (p ++ q) s = true -> String.prefix p s = true.
Proof.
  rewrite !String.prefix_correct. revert s.
  induction p as [|a p IH]; intros s H; [now destruct s|].
  destruct s as [|b s]; cbn in H; [discriminate|].
  injection H as -> H. cbn. now rewrite (IH s H).
Qed.

Lemma index_none_app p q t :
  String.index 0 p t = None -> String.index 0 (p ++ q) t = None.
Proof.
  induction t as [|c t IH]; intros H.
  - destruct p; [discriminate | reflexivity].
  - cbn [String.index] in *.
    destruct (String.prefix p (String c t)) eqn:E1; [discriminate|].
    destruct (String.index 0 p t) eqn:E2; [discriminate|].
    destruct (String.prefix (p ++ q) (String c t)) eqn:E3.
    + apply prefix_app_l in E3. congruence.
    + rewrite IH by reflexivity. reflexivity.
Qed.

(** A model answer that is a [```json] fenced block, possibly between
    blanks, yields exactly the text inside the fence, provided that text
    has no line starting with three backticks of its own. *)
Theorem extract_json_fenced (ws1 ws2 b : string)
    (Hws1 : forallb is_trim_space (list_ascii_of_string ws1) = true)
    (Hws2 : forallb is_trim_space (list_ascii_of_string ws2) = true)
    (Hb : String.index 0 (nl ++ "```") b = None) :
  extract_json (ws1 ++ ("```json" ++ nl ++ b ++ nl ++ "```") ++ ws2) = b.
Proof.
  unfold extract_json.
  change ("```json" ++ nl ++ b ++ nl ++ "```")
    with (String "`" ("``json" ++ nl ++ b ++ nl ++ "```")).
  rewrite (trim_around ws1 ws2 "`" ("``json" ++ nl ++ b ++ nl ++ "```")
             ("```json" ++ nl ++ b ++ nl ++ "``") "`"); try reflexivity; try assumption.
  2:{ cbn. rewrite string_app_assoc. reflexivity. }
  change (String "`" ("``json" ++ nl ++ b ++ nl ++ "```"))
    with (("```json" ++ nl) ++ (b ++ (nl ++ "```"))).
  unfold match_fence. rewrite index_0_self. cbv zeta.
  change (0 + String.length ("```json" ++ nl))%nat with (String.length ("```json" ++ nl)).
  rewrite index_shift, fence_close_first by exact Hb. cbn [option_map].
  replace (String.length ("```json" ++ nl) + String.length b - String.length ("```json" ++ nl))%nat
    with (String.length b) by lia.
  rewrite substring_shift, substring_app_prefix. reflexivity.
Qed.

(** A model answer whose trimmed text contains no three backticks is
    handed to [JSON.parse] as that trimmed text. *)
Theorem extract_json_unfenced (text : string)
    (H : String.index 0 "```" (trim text) = None) :
  extract_json text = trim text.
Proof.
  unfold extract_json, match_fence. cbv zeta.
  assert (E1 : String.index 0 ("```json" ++ nl) (trim text) = None)
    by exact (index_none_app "```" ("json" ++ nl) _ H).
  assert (E2 : String.index 0 ("```" ++ nl) (trim text) = None)
    by exact (index_none_app "```" nl _ H).
  rewrite E1, E2. reflexivity.
Qed.

End ExtractFacts.

(** ** The location text of [ebayProductToFinding] *)

Module LocationFacts.
Import ExtractFacts.

Lemma string_length_app a b : String.length (a ++ b) = (String.length a + String.length b)%nat.
Proof. induction a as [|c a IH]; cbn; [reflexivity | now rewrite IH]. Qed.

Lemma substring_whole x : substring 0 (String.length x) x = x.
Proof. induction x as [|c x IH]; cbn; [reflexivity | now rewrite IH]. Qed.

Lemma string_snoc s : s <> EmptyString -> exists s' d, s = s' ++ String d EmptyString.
Proof.
  induction s as [|c s IH]; intros H; [contradiction|].
  destruct s as [|c1 s1].
  - exists EmptyString, c. reflexivity.
  - destruct IH as [s' [d E]]; [discriminate|].
    exists (String c s'), d. rewrite E. reflexivity.
Qed.

(** [.replace(/^, /, '')] drops one leading separator. *)
Lemma strip_leading_sep_sep x : strip_leading_sep (", " ++ x) = x.
Proof.
  unfold strip_leading_sep.
  assert (Hp : String.prefix ", " (", " ++ x) = true)
    by (apply String.prefix_correct, substring_app_prefix).
  rewrite Hp. change 2%nat with (String.length ", ") at 1.
  rewrite substring_shift, string_length_app.
  replace (String.length ", " + String.length x - 2)%nat with (String.length x) by (cbn; lia).
  apply substring_whole.
Qed.

(** [.replace(/, $/, '')] changes nothing when the text does not end in a space. *)
Lemma strip_trailing_sep_keep s c :
  c <> " "%char -> strip_trailing_sep (s ++ String c EmptyString) = s ++ String c EmptyString.
Proof.
  intros Hc. unfold strip_trailing_sep.
  destruct (string_dec s EmptyString) as [->|Hne]; [reflexivity|].
  destruct (string_snoc s Hne) as [s' [d ->]].
  rewrite string_app_assoc. cbn [append].
  rewrite string_length_app. cbn [String.length].
  replace (String.length s' + 2 - 2)%nat with (String.length s') by lia.
  rewrite substring_shift.
  destruct (String.eqb (substring 0 2 (String d (String c EmptyString))) ", ") eqn:E;
    [|now rewrite andb_false_r].
  apply String.eqb_eq in E. cbn in E. injection E as _ E. contradiction.
Qed.

(** When an item's location has neither city nor state, the finding's
    location is not just the country: only one of the two leading
    separators is removed, so it reads [", "] followed by the country, and
    it is the empty text (not absent) when the country is missing too. *)
Theorem finding_location_country_only (p : EbayProduct) (l : ItemLocation)
    (Hl : itemLocation p = Some l)
    (Hcity : loc_city l = EmptyString) (Hstate : loc_stateOrProvince l = EmptyString) :
  (loc_country l = EmptyString ->
     location (metadata (ebayProductToFinding p)) = Some EmptyString)
  /\ (forall x c, loc_country l = x ++ String c EmptyString -> c <> " "%char ->
        location (metadata (ebayProductToFinding p)) = Some (", " ++ loc_country l)).
Proof.
  unfold ebayProductToFinding. cbn [metadata location]. rewrite Hl. cbn [option_map].
  rewrite Hcity, Hstate. split.
  - intros ->. reflexivity.
  - intros x c Hx Hc.
    change (EmptyString ++ ", " ++ EmptyString ++ ", " ++ loc_country l)
      with (", " ++ (", " ++ loc_country l)).
    rewrite strip_leading_sep_sep, Hx.
    change (", " ++ x ++ String c EmptyString) with ((", " ++ x) ++ String c EmptyString)
      || rewrite <- string_app_assoc.
    rewrite strip_trailing_sep_keep by exact Hc. reflexivity.
Qed.

End LocationFacts.

(** ** What the ON DELETE actions of the schema do *)

Module SchemaFacts.
Import Schema.

Lemma mem_In s l : mem s l = true <-> In s l.
Proof.
  unfold mem. rewrite existsb_exists. split.
  - intros [x [Hx E]]. apply String.eqb_eq in E. now subst.
  - intros H. exists s. split; [exact H | apply String.eqb_refl].
Qed.

Lemma opt_mem_iff o l : opt_mem o l = true <-> (forall g, o = Some g -> In g l).
Proof.
  destruct o as [g|]; cbn; [rewrite mem_In|]; split; intros H.
  - intros g' E. now injection E as <-.
  - now apply H.
  - discriminate.
  - reflexivity.
Qed.

Lemma refs_false_iff o gone : refs o gone = false <-> (forall g, o = Some g -> ~ In g gone).
Proof.
  destruct o as [g|]; cbn; split; intros H.
  - intros g' E Hin. injection E as <-. apply mem_In in Hin. congruence.
  - destruct (mem g gone) eqn:E; [|reflexivity]. apply mem_In in E. exfalso. exact (H g eq_refl E).
  - discriminate.
  - reflexivity.
Qed.

Lemma fk_users_iff db :
  fk_users db = true <-> (forall p, In p (profiles db) -> In (pf_id p) (auth_users db)).
Proof. unfold fk_users. rewrite forallb_forall. now setoid_rewrite mem_In. Qed.

Lemma fk_refs_iff db :
  fk_refs db = true <->
  (forall p, In p (projects db) -> In (pj_user_id p) (map pf_id (profiles db)))
  /\ (forall c, In c (conversations db) -> In (cv_user_id c) (map pf_id (profiles db))
        /\ forall g, cv_project_id c = Some g -> In g (map pj_id (projects db)))
  /\ (forall m, In m (messages db) -> In (msg_conversation_id m) (map cv_id (conversations db)))
  /\ (forall a, In a (ai_memory db) -> In (mem_user_id a) (map pf_id (profiles db))
        /\ forall g, mem_project_id a = Some g -> In g (map pj_id (projects db))).
Proof.
  unfold fk_refs. rewrite !andb_true_iff, !forallb_forall.
  setoid_rewrite andb_true_iff. setoid_rewrite mem_In. setoid_rewrite opt_mem_iff.
  tauto.
Qed.

(** A key that is not among the deleted rows' keys is still present. *)
Lemma key_kept {A} (key : A -> string) (p : A -> bool) l g :
  In g (map key l) -> ~ In g (map key (filter p l)) ->
  In g (map key (filter (fun x => negb (p x)) l)).
Proof.
  intros Hin Hnot. apply in_map_iff in Hin as [x [<- Hx]].
  apply in_map. apply filter_In. split; [exact Hx|].
  destruct (p x) eqn:E; [|reflexivity]. exfalso. apply Hnot, in_map, filter_In. auto.
Qed.

Lemma key_kept_neq {A} (key : A -> string) l g uid :
  In g (map key l) -> g <> uid ->
  In g (map key (filter (fun x => negb (String.eqb (key x) uid)) l)).
Proof.
  intros Hin Hne. apply in_map_iff in Hin as [x [<- Hx]].
  apply in_map, filter_In. split; [exact Hx|].
  apply negb_true_iff, String.eqb_neq. exact Hne.
Qed.

Lemma delete_projects_conv_ids p db :
  map cv_id (conversations (delete_projects p db)) = map cv_id (conversations db).
Proof.
  cbn. rewrite map_map. apply map_ext. intros c. now destruct (refs _ _).
Qed.

Lemma delete_projects_refs p db : fk_refs db = true -> fk_refs (delete_projects p db) = true.
Proof.
  rewrite !fk_refs_iff. intros [Hp [Hc [Hm Ha]]].
  split; [|split; [|split]].
  - intros x Hx. cbn in Hx. apply filter_In in Hx as [Hx _]. exact (Hp x Hx).
  - intros c' Hc'. cbn in Hc'. apply in_map_iff in Hc' as [c [Ec Hin]].
    destruct (Hc c Hin) as [Hu Hg].
    destruct (refs (cv_project_id c) _) eqn:R; subst c'; cbn [cv_user_id cv_project_id].
    + split; [exact Hu | discriminate].
    + split; [exact Hu|]. intros g E. apply key_kept; [exact (Hg g E)|].
      exact (proj1 (refs_false_iff _ _) R g E).
  - intros m Hm'. rewrite delete_projects_conv_ids. exact (Hm m Hm').
  - intros a Ha'. cbn in Ha'. apply filter_In in Ha' as [Hin R]. apply negb_true_iff in R.
    destruct (Ha a Hin) as [Hu Hg]. split; [exact Hu|].
    intros g E. apply key_kept; [exact (Hg g E)|].
    exact (proj1 (refs_false_iff _ _) R g E).
Qed.

Lemma delete_conversations_refs p db :
  fk_refs db = true -> fk_refs (delete_conversations p db) = true.
Proof.
  rewrite !fk_refs_iff. intros [Hp [Hc [Hm Ha]]].
  split; [exact Hp|split; [|split; [|exact Ha]]].
  - intros c Hin. cbn in Hin. apply filter_In in Hin as [Hin _]. exact (Hc c Hin).
  - intros m Hin. cbn in Hin. apply filter_In in Hin as [Hin R].
    apply negb_true_iff in R. apply key_kept; [exact (Hm m Hin)|].
    intros Hg. apply mem_In in Hg. congruence.
Qed.

Lemma delete_profile_refs uid db :
  fk_refs db = true -> fk_refs (delete_profile uid db) = true.
Proof.
  intros H. unfold delete_profile.
  pose proof (delete_conversations_refs (fun c => String.eqb (cv_user_id c) uid) _
                (delete_projects_refs (fun x => String.eqb (pj_user_id x) uid) db H)) as H2.
  revert H2.
  set (db1 := delete_projects (fun x => String.eqb (pj_user_id x) uid) db).
  set (db2 := delete_conversations (fun c => String.eqb (cv_user_id c) uid) db1).
  rewrite !fk_refs_iff. intros [Hp [Hc [Hm Ha]]]. cbn [profiles projects conversations messages ai_memory].
  split; [|split; [|split]].
  - intros x Hx. apply key_kept_neq; [exact (Hp x Hx)|].
    cbn in Hx. apply filter_In in Hx as [_ R]. apply negb_true_iff, String.eqb_neq in R. exact R.
  - intros c Hx. destruct (Hc c Hx) as [Hu Hg]. split; [|exact Hg].
    apply key_kept_neq; [exact Hu|].
    cbn in Hx. apply filter_In in Hx as [_ R]. apply negb_true_iff, String.eqb_neq in R. exact R.
  - exact Hm.
  - intros a Hx. apply filter_In in Hx as [Hx R]. apply negb_true_iff, String.eqb_neq in R.
    destruct (Ha a Hx) as [Hu Hg]. split; [|exact Hg]. apply key_kept_neq; assumption.
Qed.

Lemma delete_profile_profiles uid db :
  profiles (delete_profile uid db)
  = filter (fun x => negb (String.eqb (pf_id x) uid)) (profiles db).
Proof. reflexivity. Qed.

Lemma filter_map_ids (q : Conversation -> bool) (f : Conversation -> Conversation) l :
  (forall c, cv_id (f c) = cv_id c) -> (forall c, q (f c) = q c) ->
  map cv_id (filter q (map f l)) = map cv_id (filter q l).
Proof.
  intros Hid Hq. induction l as [|c l IH]; cbn; [reflexivity|].
  rewrite Hq. destruct (q c); cbn; [now rewrite Hid, IH | exact IH].
Qed.

(** Deleting projects, as their owner may under the policy "Users can
    manage own projects", never deletes a conversation or a message: a
    conversation linked to a deleted project stays, with its
    [project_id] set to NULL; the memories tied to a deleted project are
    deleted; every foreign key still holds afterwards. *)
Theorem delete_projects_keeps_chats (p : Project -> bool) (db : DB)
    (H : fk_ok db = true) :
  fk_ok (delete_projects p db) = true
  /\ map cv_id (conversations (delete_projects p db)) = map cv_id (conversations db)
  /\ messages (delete_projects p db) = messages db
  /\ (forall a x, In a (ai_memory (delete_projects p db)) -> In x (projects db) -> p x = true ->
        mem_project_id a <> Some (pj_id x))
  /\ (forall c, In c (conversations db) ->
        (exists x, In x (projects db) /\ p x = true /\ cv_project_id c = Some (pj_id x)) ->
        In (mkConversation (cv_id c) (cv_user_id c) None (cv_title c))
          (conversations (delete_projects p db)))
  /\ (forall c, In c (conversations db) ->
        ~ (exists x, In x (projects db) /\ p x = true /\ cv_project_id c = Some (pj_id x)) ->
        In c (conversations (delete_projects p db))).
Proof.
  unfold fk_ok in *. apply andb_true_iff in H as [Hu Hr].
  split; [apply andb_true_iff; split; [exact Hu | exact (delete_projects_refs p db Hr)]|].
  split; [apply delete_projects_conv_ids|]. split; [reflexivity|].
  split.
  { intros a x Ha Hx Hpx E. cbn in Ha. apply filter_In in Ha as [_ R].
    apply negb_true_iff in R. apply (proj1 (refs_false_iff _ _) R (pj_id x) E).
    apply in_map, filter_In. auto. }
  split; intros c Hc Hx; unfold delete_projects; cbn [conversations];
    apply in_map_iff; exists c; split; auto.
  - destruct Hx as [x [Hx [Hpx E]]].
    replace (refs (cv_project_id c) (map pj_id (filter p (projects db)))) with true; [reflexivity|].
    symmetry. rewrite E. cbn [refs]. apply mem_In, in_map, filter_In. auto.
  - destruct (refs (cv_project_id c) (map pj_id (filter p (projects db)))) eqn:R; [|reflexivity].
    exfalso. apply Hx. destruct (cv_project_id c) as [g|] eqn:E; [|discriminate R].
    apply mem_In, in_map_iff in R as [x [Ex Hx']]. apply filter_In in Hx' as [Hx' Hpx].
    exists x. rewrite Ex. auto.
Qed.

(** Deleting an auth user deletes, through the cascades, their profile,
    projects, conversations and memories, keeps every conversation of
    other users, and leaves every foreign key holding. *)
Theorem delete_user_cascade (uid : string) (db : DB) (H : fk_ok db = true) :
  let db' := delete_user uid db in
  fk_ok db' = true
  /\ ~ In uid (auth_users db') /\ ~ In uid (map pf_id (profiles db'))
  /\ Forall (fun x => pj_user_id x <> uid) (projects db')
  /\ Forall (fun c => cv_user_id c <> uid) (conversations db')
  /\ Forall (fun a => mem_user_id a <> uid) (ai_memory db')
  /\ map cv_id (conversations db')
     = map cv_id (filter (fun c => negb (String.eqb (cv_user_id c) uid)) (conversations db)).
Proof.
  intros db'. unfold fk_ok in *. apply andb_true_iff in H as [Hu Hr].
  assert (Hr' : fk_refs db' = true).
  { unfold db', delete_user. apply delete_profile_refs.
    revert Hr. rewrite !fk_refs_iff. cbn. tauto. }
  assert (Hnot : forall {A} (key : A -> string) l,
             Forall (fun x => key x <> uid) (filter (fun x => negb (String.eqb (key x) uid)) l)).
  { intros A key l. apply Forall_forall. intros x Hx. apply filter_In in Hx as [_ R].
    apply negb_true_iff, String.eqb_neq in R. exact R. }
  split; [|split; [|split; [|split; [|split; [|split]]]]].
  - apply andb_true_iff. split; [|exact Hr'].
    apply fk_users_iff. rewrite fk_users_iff in Hu. intros x Hx.
    unfold db', delete_user in Hx. rewrite delete_profile_profiles in Hx. cbn in Hx.
    apply filter_In in Hx as [Hx R]. apply negb_true_iff, String.eqb_neq in R.
    cbn. apply filter_In. split; [exact (Hu x Hx)|]. now apply negb_true_iff, String.eqb_neq.
  - cbn. intros Hin. apply filter_In in Hin as [_ R].
    rewrite String.eqb_refl in R. discriminate.
  - intros Hin. apply in_map_iff in Hin as [x [E Hx]]. unfold db', delete_user in Hx.
    rewrite delete_profile_profiles in Hx. apply filter_In in Hx as [_ R].
    rewrite E, String.eqb_refl in R. discriminate.
  - exact (Hnot _ pj_user_id _).
  - exact (Hnot _ cv_user_id _).
  - exact (Hnot _ mem_user_id _).
  - cbn. apply filter_map_ids.
    + intros c. now destruct (refs _ _).
    + intros c. now destruct (refs _ _).
Qed.

End SchemaFacts.

(** ** Instances of the properties above *)

Module ExtraInstances.
Import Samples EbayFacts AgentFacts AgentCallFacts ExtractFacts LocationFacts SchemaFacts.

Lemma getAccessToken_token_reused_witness :
  getAccessToken world_none st0 = (Ok "tok", snd (getAccessToken world_none st0))
  /\ exists e, cachedToken (snd (getAccessToken world_none st0)) = Some (mkCachedToken "tok" e)
     /\ forall w', isEbayConfigured w' = true -> (w_now w' + refresh_buffer < e)%Z ->
        getAccessToken w' (snd (getAccessToken world_none st0))
        = (Ok "tok", snd (getAccessToken world_none st0)).
Proof.
  split; [vm_compute; reflexivity|].
  apply (getAccessToken_token_reused world_none st0). vm_compute. reflexivity.
Defined.

Lemma searchEbay_unconfigured_witness :
  searchEbay unconfigured_world "solar case" opts0 st0
  = (Ok (mkEbaySearchResult false [] 0 "solar case" (Some credentials_missing_msg)), st0).
Proof. apply searchEbay_unconfigured. reflexivity. Defined.

Lemma searchEbay_response_handling_witness :
  (forall data, resp_ok 401 = true -> (Throw NonError : Exc EbaySearchResponse) = Ok data ->
     searchEbay (world_401 (Ok "Unauthorized")) "solar case" opts0 st_cached
     = (Ok (mkEbaySearchResult true
              (match itemSummaries data with Some l => l | None => [] end)
              (default_Z (resp_total data) 0) "solar case" None),
        mkSt (cachedToken st_cached)
             (app (trace st_cached) [CallSearch (search_params "solar case" opts0)])))
  /\
  (forall errorText, resp_ok 401 = false -> Ok "Unauthorized" = Ok errorText ->
     searchEbay (world_401 (Ok "Unauthorized")) "solar case" opts0 st_cached
     = (Ok (mkEbaySearchResult false [] 0 "solar case"
              (Some (if (401 =? 401)%Z then "eBay access token expired. Please retry."
                     else if (401 =? 429)%Z then "eBay API rate limit exceeded. Please try again later."
                     else "eBay search failed (" ++ Z_to_string 401 ++ "): " ++ errorText))),
        mkSt (if (401 =? 401)%Z then None else cachedToken st_cached)
             (app (trace st_cached) [CallSearch (search_params "solar case" opts0)]))).
Proof.
  apply (searchEbay_response_handling (world_401 (Ok "Unauthorized")) "solar case" opts0
           st_cached "cached" st_cached 401 (Ok "Unauthorized") (Throw NonError));
    vm_compute; reflexivity.
Defined.

Lemma retail_fetch_error_result_witness :
  exists e, error (ok_or dummy_search (fetch_of (world_401 (Ok "Unauthorized")))) = Some e
    /\ runRetailSearchAgent parse_ok (world_401 (Ok "Unauthorized")) request1 st0
       = (Ok (mkNoveltyResult "retail_search" false 0 [] ("eBay API error: " ++ e) zero_truth
                (searchQuery (ok_or dummy_search (fetch_of (world_401 (Ok "Unauthorized")))))
                (w_now (world_401 (Ok "Unauthorized")))),
          snd (fetch_of (world_401 (Ok "Unauthorized")))).
Proof.
  apply (retail_fetch_error_result parse_ok (world_401 (Ok "Unauthorized")) request1 st0);
    vm_compute; reflexivity.
Defined.

Lemma retail_findings_are_products_witness :
  Permutation
    (map (fun f => item_id (metadata f)) (findings (ok_or dummy_result (run_of parse_ok world_two_scored))))
    (map itemId (products (ok_or dummy_search (fetch_of world_two_scored)))).
Proof.
  apply (retail_findings_are_products parse_ok world_two_scored request1 st0
           (ok_or dummy_search (fetch_of world_two_scored)) (snd (fetch_of world_two_scored))
           (ok_or dummy_result (run_of parse_ok world_two_scored))
           (snd (run_of parse_ok world_two_scored)));
    vm_compute; reflexivity.
Defined.

Lemma apply_analysis_last_entry_witness :
  apply_analysis ([mkProductAnalysis "v1|123" (1 # 10) "Older answer"]
                  ++ mkProductAnalysis "v1|123" (3 # 10) "Same use" :: [mkProductAnalysis "v1|456" (8 # 10) ""])
    (ebayProductToFinding prod1)
  = mkNoveltyFinding (f_title (ebayProductToFinding prod1))
      (str_or "Same use" (f_description (ebayProductToFinding prod1)))
      (url (ebayProductToFinding prod1)) (3 # 10)
      (source (ebayProductToFinding prod1)) (metadata (ebayProductToFinding prod1))
  /\ apply_analysis [mkProductAnalysis "v1|456" (8 # 10) ""] (ebayProductToFinding prod1)
     = ebayProductToFinding prod1.
Proof.
  apply (apply_analysis_last_entry [mkProductAnalysis "v1|123" (1 # 10) "Older answer"]
           [mkProductAnalysis "v1|456" (8 # 10) ""] (mkProductAnalysis "v1|123" (3 # 10) "Same use")
           (ebayProductToFinding prod1)).
  - reflexivity.
  - constructor; [vm_compute; discriminate | constructor].
Defined.

Lemma extract_json_fenced_witness :
  extract_json (" " ++ ("```json" ++ nl ++ ("[1," ++ nl ++ "2]") ++ nl ++ "```") ++ nl)
  = "[1," ++ nl ++ "2]".
Proof.
  apply (extract_json_fenced " " nl ("[1," ++ nl ++ "2]")); vm_compute; reflexivity.
Defined.

Lemma extract_json_unfenced_witness :
  extract_json (" [1, 2] " ++ nl) = trim (" [1, 2] " ++ nl).
Proof.
  apply extract_json_unfenced. vm_compute. reflexivity.
Defined.

Lemma finding_location_country_only_witness :
  (loc_country (mkItemLocation "" "" "US") = EmptyString ->
     location (metadata (ebayProductToFinding prod3)) = Some EmptyString)
  /\ (forall x c, loc_country (mkItemLocation "" "" "US") = x ++ String c EmptyString ->
        c <> " "%char ->
        location (metadata (ebayProductToFinding prod3))
        = Some (", " ++ loc_country (mkItemLocation "" "" "US"))).
Proof.
  apply (finding_location_country_only prod3); reflexivity.
Defined.

Lemma delete_projects_keeps_chats_witness :
  let p := fun x => String.eqb (Schema.pj_id x) "p1" in
  Schema.fk_ok (Schema.delete_projects p sample_db) = true
  /\ map Schema.cv_id (Schema.conversations (Schema.delete_projects p sample_db))
     = map Schema.cv_id (Schema.conversations sample_db)
  /\ Schema.messages (Schema.delete_projects p sample_db) = Schema.messages sample_db
  /\ (forall a x, In a (Schema.ai_memory (Schema.delete_projects p sample_db)) ->
        In x (Schema.projects sample_db) -> p x = true ->
        Schema.mem_project_id a <> Some (Schema.pj_id x))
  /\ (forall c, In c (Schema.conversations sample_db) ->
        (exists x, In x (Schema.projects sample_db) /\ p x = true
                   /\ Schema.cv_project_id c = Some (Schema.pj_id x)) ->
        In (Schema.mkConversation (Schema.cv_id c) (Schema.cv_user_id c) None (Schema.cv_title c))
          (Schema.conversations (Schema.delete_projects p sample_db)))
  /\ (forall c, In c (Schema.conversations sample_db) ->
        ~ (exists x, In x (Schema.projects sample_db) /\ p x = true
                     /\ Schema.cv_project_id c = Some (Schema.pj_id x)) ->
        In c (Schema.conversations (Schema.delete_projects p sample_db))).
Proof.
  apply (delete_projects_keeps_chats (fun x => String.eqb (Schema.pj_id x) "p1") sample_db).
  vm_compute. reflexivity.
Defined.

Lemma delete_user_cascade_witness :
  let db' := Schema.delete_user "u1" sample_db in
  Schema.fk_ok db' = true
  /\ ~ In "u1" (Schema.auth_users db') /\ ~ In "u1" (map Schema.pf_id (Schema.profiles db'))
  /\ Forall (fun x => Schema.pj_user_id x <> "u1") (Schema.projects db')
  /\ Forall (fun c => Schema.cv_user_id c <> "u1") (Schema.conversations db')
  /\ Forall (fun a => Schema.mem_user_id a <> "u1") (Schema.ai_memory db')
  /\ map Schema.cv_id (Schema.conversations db')
     = map Schema.cv_id (filter (fun c => negb (String.eqb (Schema.cv_user_id c) "u1"))
                           (Schema.conversations sample_db)).
Proof.
  apply (delete_user_cascade "u1" sample_db). vm_compute. reflexivity.
Defined.

End ExtraInstances.
